(** * PowerVS image scope: the import lifecycle of [cloud/scope/powervs_image.go]

    A shallow embedding of the methods of [PowerVSImageScope] and the
    properties of the image-import controller that they implement.

    The Go methods act on three things at once: the [IBMPowerVSImage] object
    the scope points to (its status is written in place), the event recorder
    of package [record], and the remote PowerVS client.  The embedding threads
    a [Store] holding the pointed-to object, the recorded events, the logger's
    output and the trace of client calls through a small monad whose outcome
    is either a returned value or a run-time panic (a nil dereference).

    The constructor [NewPowerVSImageScope] is embedded in the same way over
    the trace of the calls it makes to the packages it builds the scope
    from, and [scripts/build-images.sh] over the lines it echoes and the
    commands it runs. *)

From Stdlib Require Import Ascii String List Bool Arith Lia.
Import ListNotations.
Open Scope string_scope.
Open Scope list_scope.

(** ** Go values *)

(** The Go [error] interface, observed through its [Error()] message. *)
Record error : Type := mkError { Error : string }.

(** ** Package [models] of the PowerVS client *)

Module models.

(** Modelled from the spec: the declaration of [models.ImageReference] is
    not part of this repository.  The remote listing is a collection of
    records [{name, id}]; [Name] is a pointer, which the source
    dereferences, and may be nil. *)
Record ImageReference : Type := mkImageReference {
  ImageID : string;
  Name : option string
}.

(** Modelled from the spec: the reply of the image listing, whose field
    [Images] is ranged over by [ensureImageUnique]. *)
Record Images : Type := mkImages {
  Images_Images : list ImageReference
}.

(** Modelled from the spec: an import job [{id, state}]; the source reads
    the state as [*lastJob.Status.State], through two pointers, either of
    which may be nil. *)
Record Status : Type := mkStatus {
  State : option string
}.

Record Job : Type := mkJob {
  Job_ID : string;
  Job_Status : option Status
}.

(** Modelled from the spec: the reference [{id}] returned by a successful
    job creation; [ID] is a pointer, which the source dereferences. *)
Record JobReference : Type := mkJobReference {
  ID : option string
}.

(** The request body assembled by [CreateImageCOSBucket].  [ImageName] and
    [BucketAccess] are filled with fresh pointers ([&m.Name],
    [core.StringPtr]); the other fields are copied from the spec as they
    are. *)
Record CreateCosImageImportJob : Type := mkCreateCosImageImportJob {
  ImageName : option string;
  BucketName : string;
  BucketAccess : option string;
  Region : string;
  ImageFilename : string;
  StorageType : string
}.

End models.

(** ** Package [infrav1beta1]: the managed resource *)

Module infrav1beta1.

Record ObjectMeta : Type := mkObjectMeta {
  Name : string
}.

Record IBMPowerVSImageSpec : Type := mkSpec {
  ServiceInstanceID : string;
  Bucket : string;
  Object : string;
  Region : string;
  StorageType : string
}.

(** [PowerVSImageState] is a string type. *)
Definition PowerVSImageState : Type := string.

Record IBMPowerVSImageStatus : Type := mkStatus {
  Ready : bool;
  ImageID : string;
  ImageState : PowerVSImageState;
  JobID : string
}.

Record IBMPowerVSImage : Type := mkImage {
  Meta : ObjectMeta;
  Spec : IBMPowerVSImageSpec;
  Status : IBMPowerVSImageStatus
}.

(** The zero value of the status, as a freshly created object carries it. *)
Definition zeroStatus : IBMPowerVSImageStatus :=
  mkStatus false "" "" "".

End infrav1beta1.

(** ** Package [powervs]: the remote client, as the scope consumes it *)

Module powervs.

(** Each method is the reply the remote side gives to a call.  A Go pair
    [(value, error)] whose value is only read when the error is nil is a
    sum; [GetCosImages] keeps both components, because its caller drops the
    error and tests the job alone. *)
Record PowerVS : Type := mkPowerVS {
  GetAllImage : models.Images + error;
  GetCosImages : string -> option models.Job * option error;
  CreateCosImage : models.CreateCosImageImportJob -> models.JobReference + error;
  DeleteImage : string -> option error;
  DeleteJob : string -> option error
}.

(** The calls issued to the client, with their arguments. *)
Inductive Call : Type :=
| CallGetAllImage
| CallGetCosImages (id : string)
| CallCreateCosImage (body : models.CreateCosImageImportJob)
| CallDeleteImage (id : string)
| CallDeleteJob (id : string).

Definition isCreate (c : Call) : bool :=
  match c with
  | CallCreateCosImage _ => true
  | _ => false
  end.

End powervs.

(** ** Package [record]: the event sink *)

Module record.

Inductive EventType : Type := Normal | Warning.

(** An event as handed to the recorder: reason, format string and the
    arguments of the format, in order. *)
Record Event : Type := mkEvent {
  eventtype : EventType;
  reason : string;
  messageFmt : string;
  args : list string
}.

Definition isWarning (e : Event) : bool :=
  match eventtype e with
  | Warning => true
  | Normal => false
  end.

End record.

(** ** The store and the monad of scope methods *)

Record Store : Type := mkStore {
  image : infrav1beta1.IBMPowerVSImage;
  events : list record.Event;
  logs : list string;
  calls : list powervs.Call
}.

Inductive Outcome (A : Type) : Type :=
| Returned (a : A)
| Panicked.

Arguments Returned {A} a.
Arguments Panicked {A}.

Definition M (A : Type) : Type := Store -> Outcome A * Store.

Definition ret {A : Type} (a : A) : M A := fun st => (Returned a, st).

Definition bind {A B : Type} (m : M A) (k : A -> M B) : M B :=
  fun st =>
    match m st with
    | (Returned a, st') => k a st'
    | (Panicked, st') => (Panicked, st')
    end.

Notation "x <- m ;; k" := (bind m (fun x => k))
  (at level 61, m at next level, right associativity).
Notation "m ;; k" := (bind m (fun _ => k))
  (at level 61, right associativity).

(** Dereferencing a pointer: nil panics. *)
Definition deref {A : Type} (p : option A) : M A :=
  fun st =>
    match p with
    | Some a => (Returned a, st)
    | None => (Panicked, st)
    end.

(** Reading the object the scope points to. *)
Definition load : M infrav1beta1.IBMPowerVSImage :=
  fun st => (Returned (image st), st).

Definition setStatus (f : infrav1beta1.IBMPowerVSImageStatus ->
                          infrav1beta1.IBMPowerVSImageStatus) : M unit :=
  fun st =>
    let obj := image st in
    (Returned tt,
     mkStore (infrav1beta1.mkImage (infrav1beta1.Meta obj)
                                   (infrav1beta1.Spec obj)
                                   (f (infrav1beta1.Status obj)))
             (events st) (logs st) (calls st)).

(** [record.Eventf] and [record.Warnf] append to the event sink. *)
Definition emit (e : record.Event) : M unit :=
  fun st =>
    (Returned tt, mkStore (image st) (events st ++ [e]) (logs st) (calls st)).

Definition Eventf (reason fmt : string) (args : list string) : M unit :=
  emit (record.mkEvent record.Normal reason fmt args).

Definition Warnf (reason fmt : string) (args : list string) : M unit :=
  emit (record.mkEvent record.Warning reason fmt args).

(** The embedded [logr.Logger]. *)
Definition Info (msg : string) : M unit :=
  fun st =>
    (Returned tt, mkStore (image st) (events st) (logs st ++ [msg]) (calls st)).

(** A call to the remote client is traced, then answered. *)
Definition remote {A : Type} (c : powervs.Call) (reply : A) : M A :=
  fun st =>
    (Returned reply,
     mkStore (image st) (events st) (logs st) (calls st ++ [c])).

(** ** The scope *)

(** BucketAccess indicates if the bucket has public or private access. *)
Definition BucketAccess : string := "public".

(** The scope's [IBMPowerVSImage] pointer designates the object held in the
    [Store]; only the client is carried by the scope value itself. *)
Record PowerVSImageScope : Type := mkScope {
  IBMPowerVSClient : powervs.PowerVS
}.

(** The [for ... range images.Images] loop of [ensureImageUnique]; each
    turn dereferences [img.Name]. *)
Fixpoint rangeImages (imgs : list models.ImageReference) (imageName : string)
  : M (option models.ImageReference) :=
  match imgs with
  | [] => ret None
  | img :: rest =>
      name <- deref (models.Name img) ;;
      if String.eqb name imageName
      then ret (Some img)
      else rangeImages rest imageName
  end.

Definition ensureImageUnique (i : PowerVSImageScope) (imageName : string)
  : M (option models.ImageReference * option error) :=
  reply <- remote powervs.CallGetAllImage
                  (powervs.GetAllImage (IBMPowerVSClient i)) ;;
  match reply with
  | inr err => ret (None, Some err)
  | inl images =>
      img <- rangeImages (models.Images_Images images) imageName ;;
      ret (img, None)
  end.

(** GetImportJob will get the image import job. *)
Definition GetImportJob (i : PowerVSImageScope)
  : M (option models.Job * option error) :=
  obj <- load ;;
  let sid := infrav1beta1.ServiceInstanceID (infrav1beta1.Spec obj) in
  remote (powervs.CallGetCosImages sid)
         (powervs.GetCosImages (IBMPowerVSClient i) sid).

(** The request body of [CreateImageCOSBucket]. *)
Definition importBody (m : infrav1beta1.ObjectMeta)
                      (s : infrav1beta1.IBMPowerVSImageSpec)
  : models.CreateCosImageImportJob :=
  models.mkCreateCosImageImportJob
    (Some (infrav1beta1.Name m))
    (infrav1beta1.Bucket s)
    (Some BucketAccess)
    (infrav1beta1.Region s)
    (infrav1beta1.Object s)
    (infrav1beta1.StorageType s).

Definition Result : Type :=
  (option models.ImageReference * option models.JobReference * option error)%type.

(** The tail of [CreateImageCOSBucket], from the construction of the body. *)
Definition submitImportJob (i : PowerVSImageScope)
                           (m : infrav1beta1.ObjectMeta)
                           (s : infrav1beta1.IBMPowerVSImageSpec) : M Result :=
  let body := importBody m s in
  reply <- remote (powervs.CallCreateCosImage body)
                  (powervs.CreateCosImage (IBMPowerVSClient i) body) ;;
  match reply with
  | inr err =>
      Info "Unable to create new import job request" ;;
      Warnf "FailedCreateImageImportJob"
            "Failed image import job creation - %v" [Error err] ;;
      ret (None, None, Some err)
  | inl jobRef =>
      Info "New import job request created" ;;
      id <- deref (models.ID jobRef) ;;
      Eventf "SuccessfulCreateImageImportJob"
             "Created image import job %q" [id] ;;
      ret (None, Some jobRef, None)
  end.

(** The test on the state of the last job: neither completed nor failed. *)
Definition notFinished (state : string) : bool :=
  negb (String.eqb state "completed") && negb (String.eqb state "failed").

(** CreateImageCOSBucket creates a power vs image. *)
Definition CreateImageCOSBucket (i : PowerVSImageScope) : M Result :=
  obj <- load ;;
  let s := infrav1beta1.Spec obj in
  let m := infrav1beta1.Meta obj in
  r <- ensureImageUnique i (infrav1beta1.Name m) ;;
  let '(imageReply, err) := r in
  match err with
  | Some e =>
      (* the argument [*imageReply.Name] is evaluated before the call *)
      img <- deref imageReply ;;
      name <- deref (models.Name img) ;;
      Warnf "FailedRetriveImage" "Failed to retrieve image %q" [name] ;;
      ret (None, None, Some e)
  | None =>
      match imageReply with
      | Some img =>
          Info "Image already exists" ;;
          name <- deref (models.Name img) ;;
          Eventf "SuccessfulRetriveImage" "Retrieved Image %q" [name] ;;
          ret (imageReply, None, None)
      | None =>
          j <- GetImportJob i ;;
          let '(lastJob, _) := j in
          match lastJob with
          | Some job =>
              status <- deref (models.Job_Status job) ;;
              state <- deref (models.State status) ;;
              if notFinished state
              then
                Info ("Previous import job not yet fininshed - " ++ state) ;;
                ret (None, None, None)
              else submitImportJob i m s
          | None => submitImportJob i m s
          end
      end
  end.

(** DeleteImage will delete the image. *)
Definition DeleteImage (i : PowerVSImageScope) : M (option error) :=
  obj <- load ;;
  let id := infrav1beta1.ImageID (infrav1beta1.Status obj) in
  reply <- remote (powervs.CallDeleteImage id)
                  (powervs.DeleteImage (IBMPowerVSClient i) id) ;;
  match reply with
  | Some err =>
      Warnf "FailedDeleteImage" "Failed image deletion - %v" [Error err] ;;
      ret (Some err)
  | None =>
      obj' <- load ;;
      Eventf "SuccessfulDeleteImage" "Deleted Image %q"
             [infrav1beta1.ImageID (infrav1beta1.Status obj')] ;;
      ret None
  end.

(** DeleteImportJob will delete the image import job. *)
Definition DeleteImportJob (i : PowerVSImageScope) : M (option error) :=
  obj <- load ;;
  let id := infrav1beta1.JobID (infrav1beta1.Status obj) in
  reply <- remote (powervs.CallDeleteJob id)
                  (powervs.DeleteJob (IBMPowerVSClient i) id) ;;
  match reply with
  | Some err =>
      Warnf "FailedDeleteImageImoprtJob"
            "Failed image import job deletion - %v" [Error err] ;;
      ret (Some err)
  | None =>
      obj' <- load ;;
      Eventf "SuccessfulDeleteImageImoprtJob" "Deleted image import job %q"
             [infrav1beta1.JobID (infrav1beta1.Status obj')] ;;
      ret None
  end.

(** SetReady will set the status as ready for the image. *)
Definition SetReady (i : PowerVSImageScope) : M unit :=
  setStatus (fun st =>
    infrav1beta1.mkStatus true (infrav1beta1.ImageID st)
                          (infrav1beta1.ImageState st) (infrav1beta1.JobID st)).

(** SetNotReady will set the status as not ready for the image. *)
Definition SetNotReady (i : PowerVSImageScope) : M unit :=
  setStatus (fun st =>
    infrav1beta1.mkStatus false (infrav1beta1.ImageID st)
                          (infrav1beta1.ImageState st) (infrav1beta1.JobID st)).

(** IsReady will return the status for the image. *)
Definition IsReady (i : PowerVSImageScope) : M bool :=
  obj <- load ;; ret (infrav1beta1.Ready (infrav1beta1.Status obj)).

(** SetImageID will set the id for the image. *)
Definition SetImageID (i : PowerVSImageScope) (id : option string) : M unit :=
  match id with
  | Some s =>
      setStatus (fun st =>
        infrav1beta1.mkStatus (infrav1beta1.Ready st) s
                              (infrav1beta1.ImageState st)
                              (infrav1beta1.JobID st))
  | None => ret tt
  end.

(** GetImageID will get the id for the image. *)
Definition GetImageID (i : PowerVSImageScope) : M string :=
  obj <- load ;; ret (infrav1beta1.ImageID (infrav1beta1.Status obj)).

(** SetImageState will set the state for the image. *)
Definition SetImageState (i : PowerVSImageScope) (status : string) : M unit :=
  setStatus (fun st =>
    infrav1beta1.mkStatus (infrav1beta1.Ready st) (infrav1beta1.ImageID st)
                          status (infrav1beta1.JobID st)).

(** GetImageState will get the state for the image. *)
Definition GetImageState (i : PowerVSImageScope)
  : M infrav1beta1.PowerVSImageState :=
  obj <- load ;; ret (infrav1beta1.ImageState (infrav1beta1.Status obj)).

(** SetJobID will set the id for the import image job. *)
Definition SetJobID (i : PowerVSImageScope) (id : string) : M unit :=
  setStatus (fun st =>
    infrav1beta1.mkStatus (infrav1beta1.Ready st) (infrav1beta1.ImageID st)
                          (infrav1beta1.ImageState st) id).

(** GetJobID will get the id for the import image job. *)
Definition GetJobID (i : PowerVSImageScope) : M string :=
  obj <- load ;; ret (infrav1beta1.JobID (infrav1beta1.Status obj)).

(** ** Running a method *)

Definition outcome {A : Type} (r : Outcome A * Store) : Outcome A := fst r.
Definition final {A : Type} (r : Outcome A * Store) : Store := snd r.

(** The keys with which the import job was looked up, in call order. *)
Definition jobQueryKeys (cs : list powervs.Call) : list string :=
  flat_map (fun c => match c with
                     | powervs.CallGetCosImages id => [id]
                     | _ => []
                     end) cs.

(** The job-creation requests among a trace of calls. *)
Definition createCalls (cs : list powervs.Call) : list powervs.Call :=
  filter powervs.isCreate cs.

(** The resource's name and the key of its service instance. *)
Definition nameOf (st : Store) : string :=
  infrav1beta1.Name (infrav1beta1.Meta (image st)).

Definition statusOf (st : Store) : infrav1beta1.IBMPowerVSImageStatus :=
  infrav1beta1.Status (image st).

Definition specOf (st : Store) : infrav1beta1.IBMPowerVSImageSpec :=
  infrav1beta1.Spec (image st).

(** No record of the listing carries the given name. *)
Definition noMatch (imgs : models.Images) (n : string) : Prop :=
  forall img,
    In img (models.Images_Images imgs) -> models.Name img <> Some n.

(** [img] is the first record of the listing, in listing order, that carries
    the given name; [pre] are the records listed before it. *)
Definition firstMatch (imgs : models.Images) (n : string)
                      (pre : list models.ImageReference)
                      (img : models.ImageReference) : Prop :=
  exists post,
    models.Images_Images imgs = pre ++ img :: post /\
    models.Name img = Some n /\
    forall x, In x pre -> models.Name x <> Some n.

(** Every record of a list carries a name. *)
Definition allNamed (l : list models.ImageReference) : Prop :=
  forall x, In x l -> models.Name x <> None.

(** The first record without a name comes before any record of the given
    name; [pre] are the records listed before it. *)
Definition nilNameFirst (imgs : models.Images) (n : string)
                        (pre : list models.ImageReference) : Prop :=
  exists x post,
    models.Images_Images imgs = pre ++ x :: post /\
    models.Name x = None /\
    allNamed pre /\
    forall y, In y pre -> models.Name y <> Some n.

(** The state of a fetched job, when both pointers to it are set. *)
Definition stateOf (job : models.Job) : option string :=
  match models.Job_Status job with
  | Some status => models.State status
  | None => None
  end.

(** Both references of a result are non-nil. *)
Definition bothRefs (r : Result) : bool :=
  match r with
  | (Some _, Some _, _) => true
  | _ => false
  end.

(** ** The operations on the status, as a caller may sequence them *)

Inductive Op : Type :=
| OpSetReady
| OpSetNotReady
| OpSetImageID (id : option string)
| OpSetImageState (status : string)
| OpSetJobID (id : string)
| OpDeleteImage
| OpDeleteImportJob.

Definition exec (i : PowerVSImageScope) (op : Op) (st : Store) : Store :=
  match op with
  | OpSetReady => final (SetReady i st)
  | OpSetNotReady => final (SetNotReady i st)
  | OpSetImageID id => final (SetImageID i id st)
  | OpSetImageState s => final (SetImageState i s st)
  | OpSetJobID id => final (SetJobID i id st)
  | OpDeleteImage => final (DeleteImage i st)
  | OpDeleteImportJob => final (DeleteImportJob i st)
  end.

Definition execAll (i : PowerVSImageScope) (ops : list Op) (st : Store) : Store :=
  fold_left (fun s op => exec i op s) ops st.

(** A store is initial when the status of its object is the zero value. *)
Definition initial (st : Store) : Prop :=
  statusOf st = infrav1beta1.zeroStatus.

(** The states of the status reachable under the scope's operations. *)
Inductive reachable (i : PowerVSImageScope) : Store -> Prop :=
| reach_init : forall st, initial st -> reachable i st
| reach_step : forall st op, reachable i st -> reachable i (exec i op st).

(** Ready holds exactly when an image identity is recorded. *)
Definition readyIffImageID (s : infrav1beta1.IBMPowerVSImageStatus) : Prop :=
  infrav1beta1.Ready s = true <-> infrav1beta1.ImageID s <> "".

(** The readiness written last by a sequence of operations, [r] if it
    writes none. *)
Fixpoint lastReady (r : bool) (ops : list Op) : bool :=
  match ops with
  | [] => r
  | OpSetReady :: rest => lastReady true rest
  | OpSetNotReady :: rest => lastReady false rest
  | _ :: rest => lastReady r rest
  end.

(** The image identity written last by a sequence of operations, [id] if it
    writes none. *)
Fixpoint lastImageID (id : string) (ops : list Op) : string :=
  match ops with
  | [] => id
  | OpSetImageID (Some id') :: rest => lastImageID id' rest
  | _ :: rest => lastImageID id rest
  end.

(** ** Sample data *)

Module Sample.

Definition imgA : models.ImageReference :=
  models.mkImageReference "123" (Some "img-a").
Definition imgB : models.ImageReference :=
  models.mkImageReference "456" (Some "img-b").
Definition imgA' : models.ImageReference :=
  models.mkImageReference "789" (Some "img-a").

(** A record whose name pointer is nil. *)
Definition unnamed : models.ImageReference :=
  models.mkImageReference "000" None.

Definition boom : error := mkError "connection refused".

Definition obj (name : string) (status : infrav1beta1.IBMPowerVSImageStatus)
  : infrav1beta1.IBMPowerVSImage :=
  infrav1beta1.mkImage
    (infrav1beta1.mkObjectMeta name)
    (infrav1beta1.mkSpec "svc-1" "b1" "o1" "us-south" "tier1")
    status.

Definition store (name : string) (status : infrav1beta1.IBMPowerVSImageStatus)
  : Store :=
  mkStore (obj name status) [] [] [].

Definition tracked : infrav1beta1.IBMPowerVSImageStatus :=
  infrav1beta1.mkStatus false "" "importing" "job-1".

Definition imported : infrav1beta1.IBMPowerVSImageStatus :=
  infrav1beta1.mkStatus true "123" "available" "job-1".

Definition jobIn (state : string) : models.Job :=
  models.mkJob "job-1" (Some (models.mkStatus (Some state))).

(** A client given by its listing, the job it reports and whether the
    mutating calls succeed. *)
Definition client (listing : models.Images + error)
                  (job : option models.Job * option error)
                  (fails : option error) : PowerVSImageScope :=
  mkScope (powervs.mkPowerVS
             listing
             (fun _ => job)
             (fun _ => match fails with
                       | Some e => inr e
                       | None => inl (models.mkJobReference (Some "job-2"))
                       end)
             (fun _ => fails)
             (fun _ => fails)).

End Sample.

(** ** The constructor [NewPowerVSImageScope] and its collaborators *)

(** [errors.New], [errors.Wrap] of [github.com/pkg/errors] and the constant
    [fmt.Errorf] of the constructor, observed through the message. *)
Definition errors_New (msg : string) : error := mkError msg.

Definition errors_Wrap (err : error) (msg : string) : error :=
  mkError (msg ++ ": " ++ Error err).

Module ctrlclient.

(** A non-nil [client.Client] of the controller runtime, as an opaque
    handle. *)
Inductive Client : Type := Handle (n : nat).

End ctrlclient.

Module logr.

(** A [logr.Logger] is compared with its zero value by the constructor and
    asked whether the debug level is enabled; nothing else is observed. *)
Inductive Logger : Type :=
| Zero
| WithSink (name : string).

Definition isZero (l : Logger) : bool :=
  match l with
  | Zero => true
  | WithSink _ => false
  end.

End logr.

(** [klogr.New()]. *)
Definition klogr_New : logr.Logger := logr.WithSink "klogr".

Module patch.

(** A patch helper, observed through the verdict of its [Patch] on an
    object. *)
Record Helper : Type := mkHelper {
  Patch : infrav1beta1.IBMPowerVSImage -> option error
}.

End patch.

Module core.

(** An authenticator of the IBM SDK core, as an opaque handle. *)
Inductive Authenticator : Type := Auth (apikey : string).

End core.

Module resourcecontrollerv2.

(** The constructor dereferences [res.RegionID]: the field is a pointer. *)
Record ResourceInstance : Type := mkResourceInstance {
  RegionID : option string
}.

Record GetResourceInstanceOptions : Type := mkGetResourceInstanceOptions {
  ID : option string
}.

End resourcecontrollerv2.

Module resourcecontroller.

(** The resource controller service, by its reply to
    [GetResourceInstance]; the detailed response it also returns is dropped
    by the constructor. *)
Record Service : Type := mkService {
  GetResourceInstance :
    resourcecontrollerv2.GetResourceInstanceOptions ->
    resourcecontrollerv2.ResourceInstance + error
}.

End resourcecontroller.

Module ibmpisession.

Record IBMPIOptions : Type := mkIBMPIOptions {
  Debug : bool;
  UserAccount : string;
  Region : string;
  Zone : string
}.

End ibmpisession.

(** [powervs.ServiceOptions]. *)
Record ServiceOptions : Type := mkServiceOptions {
  IBMPIOptions : option ibmpisession.IBMPIOptions;
  CloudInstanceID : string
}.

(** What the packages called by the constructor answer. *)
Record Env : Type := mkEnv {
  patch_NewHelper :
    infrav1beta1.IBMPowerVSImage -> ctrlclient.Client -> patch.Helper + error;
  authenticator_GetAuthenticator : core.Authenticator + error;
  servicesutils_GetAccount : core.Authenticator -> string + error;
  resourcecontroller_NewService : resourcecontroller.Service + error;
  utils_GetRegion : string -> string + error;
  powervs_NewService : ServiceOptions -> powervs.PowerVS + error;
  (* [logger.V(DEBUGLEVEL).Enabled()] *)
  debugEnabled : logr.Logger -> bool
}.

(** The calls the constructor makes to those packages, with the arguments
    that it chooses. *)
Inductive SetupCall : Type :=
| CallNewHelper (obj : infrav1beta1.IBMPowerVSImage) (c : ctrlclient.Client)
| CallGetAuthenticator
| CallGetAccount (auth : core.Authenticator)
| CallNewResourceController
| CallGetResourceInstance (opts : resourcecontrollerv2.GetResourceInstanceOptions)
| CallGetRegion (zone : string)
| CallNewPowerVS (opts : ServiceOptions).

(** The position of a call in the text of the constructor. *)
Definition step (c : SetupCall) : nat :=
  match c with
  | CallNewHelper _ _ => 1
  | CallGetAuthenticator => 2
  | CallGetAccount _ => 3
  | CallNewResourceController => 4
  | CallGetResourceInstance _ => 5
  | CallGetRegion _ => 6
  | CallNewPowerVS _ => 7
  end.

Module params.

(** PowerVSImageScopeParams defines the input parameters used to create a new
    PowerVSImageScope. *)
Record PowerVSImageScopeParams : Type := mkParams {
  Client : option ctrlclient.Client;
  Logger : logr.Logger;
  IBMPowerVSImage : option infrav1beta1.IBMPowerVSImage
}.

End params.

Module alloc.

(** The struct [PowerVSImageScope] as the constructor allocates and fills
    it: each interface or pointer field may still be nil.  The record
    [PowerVSImageScope] above is the view that the methods take of a scope
    whose PowerVS client is set. *)
Record PowerVSImageScope : Type := mkScope {
  Logger : logr.Logger;
  client : option ctrlclient.Client;
  patchHelper : option patch.Helper;
  IBMPowerVSClient : option powervs.PowerVS;
  IBMPowerVSImage : option infrav1beta1.IBMPowerVSImage
}.

(** [&PowerVSImageScope{}]. *)
Definition zero : PowerVSImageScope :=
  mkScope logr.Zero None None None None.

End alloc.

(** The monad of the constructor: a trace of calls, and a possible panic. *)
Definition Setup (A : Type) : Type :=
  list SetupCall -> Outcome A * list SetupCall.

Definition retS {A : Type} (a : A) : Setup A := fun tr => (Returned a, tr).

Definition bindS {A B : Type} (m : Setup A) (k : A -> Setup B) : Setup B :=
  fun tr =>
    match m tr with
    | (Returned a, tr') => k a tr'
    | (Panicked, tr') => (Panicked, tr')
    end.

Notation "x <~ m ;; k" := (bindS m (fun x => k))
  (at level 61, m at next level, right associativity).

Definition derefS {A : Type} (p : option A) : Setup A :=
  fun tr =>
    match p with
    | Some a => (Returned a, tr)
    | None => (Panicked, tr)
    end.

Definition external {A : Type} (c : SetupCall) (reply : A) : Setup A :=
  fun tr => (Returned reply, tr ++ [c]).

(** NewPowerVSImageScope creates a new PowerVSImageScope from the supplied
    parameters.  The results [scope] and [err] are named: a bare [return]
    hands back the scope as filled so far together with the error. *)
Definition NewPowerVSImageScope (env : Env)
                                (p : params.PowerVSImageScopeParams)
  : Setup (alloc.PowerVSImageScope * option error) :=
  let scope := alloc.zero in
  match params.Client p with
  | None =>
      retS (scope,
            Some (errors_New "failed to generate new scope from nil Client"))
  | Some cl =>
  let scope := alloc.mkScope (alloc.Logger scope) (Some cl)
                 (alloc.patchHelper scope) (alloc.IBMPowerVSClient scope)
                 (alloc.IBMPowerVSImage scope) in
  match params.IBMPowerVSImage p with
  | None =>
      retS (scope,
            Some (errors_New
                    "failed to generate new scope from nil IBMPowerVSImage"))
  | Some obj =>
  let scope := alloc.mkScope (alloc.Logger scope) (alloc.client scope)
                 (alloc.patchHelper scope) (alloc.IBMPowerVSClient scope)
                 (Some obj) in
  let logger := if logr.isZero (params.Logger p)
                then klogr_New else params.Logger p in
  let scope := alloc.mkScope logger (alloc.client scope)
                 (alloc.patchHelper scope) (alloc.IBMPowerVSClient scope)
                 (alloc.IBMPowerVSImage scope) in
  r <~ external (CallNewHelper obj cl) (patch_NewHelper env obj cl) ;;
  match r with
  | inr err =>
      retS (scope, Some (errors_Wrap err "failed to init patch helper"))
  | inl helper =>
  let scope := alloc.mkScope (alloc.Logger scope) (alloc.client scope)
                 (Some helper) (alloc.IBMPowerVSClient scope)
                 (alloc.IBMPowerVSImage scope) in
  let spec := infrav1beta1.Spec obj in
  r <~ external CallGetAuthenticator (authenticator_GetAuthenticator env) ;;
  match r with
  | inr err =>
      retS (scope, Some (errors_Wrap err "failed to get authenticator"))
  | inl auth =>
  r <~ external (CallGetAccount auth) (servicesutils_GetAccount env auth) ;;
  match r with
  | inr err => retS (scope, Some (errors_Wrap err "failed to get account"))
  | inl account =>
  r <~ external CallNewResourceController (resourcecontroller_NewService env) ;;
  match r with
  | inr err => retS (scope, Some err)
  | inl rc =>
  let opts := resourcecontrollerv2.mkGetResourceInstanceOptions
                (Some (infrav1beta1.ServiceInstanceID spec)) in
  r <~ external (CallGetResourceInstance opts)
                (resourcecontroller.GetResourceInstance rc opts) ;;
  match r with
  | inr err =>
      retS (scope, Some (errors_Wrap err "failed to get resource instance"))
  | inl res =>
  zone <~ derefS (resourcecontrollerv2.RegionID res) ;;
  r <~ external (CallGetRegion zone) (utils_GetRegion env zone) ;;
  match r with
  | inr err => retS (scope, Some (errors_Wrap err "failed to get region"))
  | inl region =>
  zone' <~ derefS (resourcecontrollerv2.RegionID res) ;;
  let options :=
    mkServiceOptions
      (Some (ibmpisession.mkIBMPIOptions (debugEnabled env logger)
                                         account region zone'))
      (infrav1beta1.ServiceInstanceID spec) in
  r <~ external (CallNewPowerVS options) (powervs_NewService env options) ;;
  match r with
  | inr _ =>
      retS (scope, Some (mkError "failed to create NewIBMPowerVSClient"))
  | inl c =>
  let scope := alloc.mkScope (alloc.Logger scope) (alloc.client scope)
                 (alloc.patchHelper scope) (Some c)
                 (alloc.IBMPowerVSImage scope) in
  retS (scope, None)
  end end end end end end end end end.

(** What a run of the constructor hands back, and the calls it has made. *)
Definition resultOf {A : Type} (r : Outcome A * list SetupCall) : Outcome A :=
  fst r.

Definition traceOf {A : Type} (r : Outcome A * list SetupCall)
  : list SetupCall := snd r.

(** The scope on which the methods run, once the constructor has set its
    PowerVS client. *)
Definition methodsScope (s : alloc.PowerVSImageScope) : option PowerVSImageScope :=
  match alloc.IBMPowerVSClient s with
  | Some c => Some (mkScope c)
  | None => None
  end.

(** ** The fields of the status that the accessors write *)

Inductive Field : Type := FReady | FImageID | FImageState | FJobID.

(** The field an operation writes; none for a delete or for [SetImageID] on a
    nil pointer. *)
Definition writes (op : Op) : option Field :=
  match op with
  | OpSetReady | OpSetNotReady => Some FReady
  | OpSetImageID (Some _) => Some FImageID
  | OpSetImageID None => None
  | OpSetImageState _ => Some FImageState
  | OpSetJobID _ => Some FJobID
  | OpDeleteImage | OpDeleteImportJob => None
  end.

Module SampleEnv.

Definition helper : patch.Helper := patch.mkHelper (fun _ => None).

Definition pvs : powervs.PowerVS :=
  powervs.mkPowerVS (inl (models.mkImages [])) (fun _ => (None, None))
                    (fun _ => inl (models.mkJobReference (Some "job-2")))
                    (fun _ => None) (fun _ => None).

Definition rc (region : option string) : resourcecontroller.Service :=
  resourcecontroller.mkService
    (fun _ => inl (resourcecontrollerv2.mkResourceInstance region)).

(** An environment in which every step succeeds, for a service instance
    whose region identity is the given one. *)
Definition ok (region : option string) : Env :=
  mkEnv (fun _ _ => inl helper)
        (inl (core.Auth "key"))
        (fun _ => inl "account-1")
        (inl (rc region))
        (fun _ => inl "us-south")
        (fun _ => inl pvs)
        (fun _ => false).

(** The same, with the last step, the construction of the PowerVS client,
    failing. *)
Definition noPowerVS (cause : error) : Env :=
  mkEnv (fun _ _ => inl helper)
        (inl (core.Auth "key"))
        (fun _ => inl "account-1")
        (inl (rc (Some "us-south-1")))
        (fun _ => inl "us-south")
        (fun _ => inr cause)
        (fun _ => false).

(** The same, with the resource controller service failing to start. *)
Definition noResourceController (cause : error) : Env :=
  mkEnv (fun _ _ => inl helper)
        (inl (core.Auth "key"))
        (fun _ => inl "account-1")
        (inr cause)
        (fun _ => inl "us-south")
        (fun _ => inl pvs)
        (fun _ => false).

Definition obj : infrav1beta1.IBMPowerVSImage :=
  Sample.obj "boot-img" infrav1beta1.zeroStatus.

Definition full : params.PowerVSImageScopeParams :=
  params.mkParams (Some (ctrlclient.Handle 1)) logr.Zero (Some obj).

End SampleEnv.

(** ** [scripts/build-images.sh] *)

Module regex.

(** The extended regular expressions used by the script, over bytes. *)
Inductive re : Type :=
| Void
| Eps
| Chr (c : ascii)
| Range (lo hi : ascii)
| Seq (a b : re)
| Alt (a b : re)
| Star (a : re).

Definition Plus (a : re) : re := Seq a (Star a).

Definition inRange (lo hi c : ascii) : bool :=
  Nat.leb (nat_of_ascii lo) (nat_of_ascii c) &&
  Nat.leb (nat_of_ascii c) (nat_of_ascii hi).

(** The strings of an expression. *)
Inductive lang : re -> string -> Prop :=
| LEps : lang Eps ""
| LChr (c : ascii) : lang (Chr c) (String c "")
| LRange (lo hi c : ascii) :
    inRange lo hi c = true -> lang (Range lo hi) (String c "")
| LSeq (a b : re) (s t : string) :
    lang a s -> lang b t -> lang (Seq a b) (s ++ t)
| LAltL (a b : re) (s : string) : lang a s -> lang (Alt a b) s
| LAltR (a b : re) (s : string) : lang b s -> lang (Alt a b) s
| LStarNil (a : re) : lang (Star a) ""
| LStarCons (a : re) (s t : string) :
    lang a s -> lang (Star a) t -> lang (Star a) (s ++ t).

Fixpoint nullable (r : re) : bool :=
  match r with
  | Void => false
  | Eps => true
  | Chr _ => false
  | Range _ _ => false
  | Seq a b => nullable a && nullable b
  | Alt a b => nullable a || nullable b
  | Star _ => true
  end.

(** What is left of an expression once the byte [c] is read. *)
Fixpoint deriv (c : ascii) (r : re) : re :=
  match r with
  | Void => Void
  | Eps => Void
  | Chr d => if Ascii.eqb c d then Eps else Void
  | Range lo hi => if inRange lo hi c then Eps else Void
  | Seq a b =>
      if nullable a
      then Alt (Seq (deriv c a) b) (deriv c b)
      else Seq (deriv c a) b
  | Alt a b => Alt (deriv c a) (deriv c b)
  | Star a => Seq (deriv c a) (Star a)
  end.

(** [[[ s =~ ^r ]]]: the expression is anchored at the start of the string
    only, so the test holds when some prefix of [s] is a string of [r]. *)
Fixpoint matchesAtStart (r : re) (s : string) : bool :=
  nullable r ||
  match s with
  | EmptyString => false
  | String c s' => matchesAtStart (deriv c r) s'
  end.

(** An expression without any string, as far as its shape tells. *)
Fixpoint dead (r : re) : bool :=
  match r with
  | Void => true
  | Seq a _ => dead a
  | Alt a b => dead a && dead b
  | _ => false
  end.

End regex.

Module build_images.

(** The variables the script reads from its environment; under
    [set -o nounset] the expansion of an unset one ends the script. *)
Record Environ : Type := mkEnviron {
  TRAVIS_TAG : option string;
  TRAVIS_BRANCH : option string;
  DOCKER_USERNAME : option string;
  DOCKER_PASSWORD : option string
}.

(** The commands the script runs.  An unquoted expansion is kept as the
    text it expands to, before the shell splits it into words. *)
Inductive Command : Type :=
| DockerLogin (user password : string)
| Cd (dir : string)
| Make (arguments : string)
| CdBack
| DockerPush (img : string)
| DockerTag (src dst : string).

(** What the script does, in order: the lines it echoes and the commands it
    runs.  The output of the commands themselves is not kept. *)
Inductive Action : Type :=
| Echo (line : string)
| EchoErr (line : string)
| Run (c : Command).

(** How the script ends before its last line: by its [exit 0], on a command
    that failed under [set -o errexit], or on an unset variable. *)
Inductive Ending : Type :=
| Exit0
| Failed (c : Command)
| Unbound (variable : string).

Inductive Step (A : Type) : Type :=
| Next (a : A)
| Ended (e : Ending).

Arguments Next {A} a.
Arguments Ended {A} e.

(** The exit status of each command is given by the world the script runs
    in: [true] for status zero. *)
Definition Sh (A : Type) : Type :=
  (Command -> bool) -> list Action -> Step A * list Action.

Definition retSh {A : Type} (a : A) : Sh A := fun _ tr => (Next a, tr).

Definition bindSh {A B : Type} (m : Sh A) (k : A -> Sh B) : Sh B :=
  fun w tr =>
    match m w tr with
    | (Next a, tr') => k a w tr'
    | (Ended e, tr') => (Ended e, tr')
    end.

Notation "x <- m ;;; k" := (bindSh m (fun x => k))
  (at level 61, m at next level, right associativity).
Notation "m ;;; k" := (bindSh m (fun _ => k))
  (at level 61, right associativity).

Definition echo (line : string) : Sh unit :=
  fun _ tr => (Next tt, tr ++ [Echo line]).

Definition echoErr (line : string) : Sh unit :=
  fun _ tr => (Next tt, tr ++ [EchoErr line]).

Definition exit0 {A : Type} : Sh A := fun _ tr => (Ended Exit0, tr).

(** [${NAME}] under nounset. *)
Definition expand (name : string) (value : option string) : Sh string :=
  fun _ tr =>
    match value with
    | Some v => (Next v, tr)
    | None => (Ended (Unbound name), tr)
    end.

(** A simple command under errexit. *)
Definition run (c : Command) : Sh unit :=
  fun w tr =>
    if w c then (Next tt, tr ++ [Run c]) else (Ended (Failed c), tr ++ [Run c]).

(** [${REGISTRY///}]: every slash removed. *)
Fixpoint removeSlashes (s : string) : string :=
  match s with
  | EmptyString => EmptyString
  | String c s' =>
      if Ascii.eqb c "/"%char then removeSlashes s'
      else String c (removeSlashes s')
  end.

Definition digit : regex.re := regex.Range "0"%char "9"%char.

(** [^v([0-9]\.)+([0-9])[-a-zA-Z0-9]*([.0-9])*] *)
Definition tagPattern : regex.re :=
  regex.Seq (regex.Chr "v"%char)
   (regex.Seq (regex.Plus (regex.Seq digit (regex.Chr "."%char)))
    (regex.Seq digit
     (regex.Seq
        (regex.Star
           (regex.Alt (regex.Chr "-"%char)
            (regex.Alt (regex.Range "a"%char "z"%char)
             (regex.Alt (regex.Range "A"%char "Z"%char)
                        (regex.Range "0"%char "9"%char)))))
        (regex.Star (regex.Alt (regex.Chr "."%char)
                               (regex.Range "0"%char "9"%char)))))).

(** A decimal digit, and a string that starts like a version: [v], a digit,
    a dot, a digit. *)
Definition isDigit (c : ascii) : bool := regex.inRange "0"%char "9"%char c.

Definition startsLikeVersion (s : string) : bool :=
  match s with
  | String c1 (String c2 (String c3 (String c4 _))) =>
      Ascii.eqb c1 "v"%char && isDigit c2 &&
      Ascii.eqb c3 "."%char && isDigit c4
  | _ => false
  end.

Definition REGISTRY : string := "docker.io/".
Definition REPO : string := "multicloudlab".

(** [${REGISTRY}${REPO}/cluster-api-provider-ibmcloud-controller:${TAG}] *)
Definition image (tag : string) : string :=
  (REGISTRY ++ REPO ++ "/cluster-api-provider-ibmcloud-controller:" ++ tag)%string.

(** The [if]/[elif]/[else] that chooses [TAG] and [LATEST]. *)
Definition chooseTag (tag branch : string) : Sh (string * string) :=
  if regex.matchesAtStart tagPattern tag
  then
    echo ("Using tag: '" ++ tag ++ "' and 'latest' .") ;;;
    retSh (tag, "latest")
  else if String.eqb branch "master"
  then
    echo "Using tag: 'canary'." ;;;
    retSh ("canary", "")
  else
    echoErr "Nothing to deploy. Image build skipped." ;;;
    exit0.

(** The script, run from [base_dir]. *)
Definition script (base_dir : string) (env : Environ) : Sh unit :=
  tag <- expand "TRAVIS_TAG" (TRAVIS_TAG env) ;;;
  echo ("travis tag: " ++ tag) ;;;
  branch <- expand "TRAVIS_BRANCH" (TRAVIS_BRANCH env) ;;;
  echo ("travis branch:" ++ branch) ;;;
  chosen <- chooseTag tag branch ;;;
  let TAG := fst chosen in
  let LATEST := snd chosen in
  echo "Starting image build" ;;;
  echo ("Logging into registry " ++ removeSlashes REGISTRY) ;;;
  user <- expand "DOCKER_USERNAME" (DOCKER_USERNAME env) ;;;
  password <- expand "DOCKER_PASSWORD" (DOCKER_PASSWORD env) ;;;
  run (DockerLogin user password) ;;;
  echo "Building controller docker image" ;;;
  run (Cd base_dir) ;;;
  run (Make ("container IMG=" ++ image TAG)) ;;;
  run CdBack ;;;
  echo ("Pushing image with tag '" ++ TAG ++ "'.") ;;;
  run (DockerPush (image TAG)) ;;;
  if String.eqb LATEST "latest"
  then
    run (DockerTag (image TAG) (image LATEST)) ;;;
    echo ("Pushing image with tag '" ++ LATEST ++ "'.") ;;;
    run (DockerPush (image LATEST))
  else retSh tt.

(** The commands among the actions of a run. *)
Definition commands (tr : list Action) : list Command :=
  flat_map (fun a => match a with Run c => [c] | _ => [] end) tr.

(** The script in a world where it starts with nothing done yet. *)
Definition start (base_dir : string) (env : Environ) (w : Command -> bool)
  : Step unit * list Action :=
  script base_dir env w [].

End build_images.

(** ** Facts about the scan of the listing *)

(** The scan reads the listing and touches nothing. *)
Lemma rangeImages_store (l : list models.ImageReference) (n : string) :
  forall st, snd (rangeImages l n st) = st.
Proof.
  induction l as [|x l IH]; intros st; simpl.
  - reflexivity.
  - unfold bind, deref. destruct (models.Name x) as [m|]; [|reflexivity].
    destruct (String.eqb m n); [reflexivity | apply IH].
Qed.

(** A listing of named records, none of the given name, is scanned to its
    end. *)
Lemma rangeImages_noMatch (l : list models.ImageReference) (n : string) :
  allNamed l ->
  (forall img, In img l -> models.Name img <> Some n) ->
  forall st, rangeImages l n st = (Returned None, st).
Proof.
  induction l as [|x l IH]; intros Hnamed Hno st; simpl.
  - reflexivity.
  - unfold bind, deref.
    destruct (models.Name x) as [m|] eqn:Hx.
    + destruct (String.eqb_spec m n) as [Heq|Hne].
      * exfalso. apply (Hno x); [now left | now rewrite Hx, Heq].
      * apply IH.
        -- intros y Hy. apply Hnamed. now right.
        -- intros y Hy. apply Hno. now right.
    + exfalso. apply (Hnamed x); [now left | exact Hx].
Qed.

(** The scan stops at the first record of the given name, when the records
    before it are named. *)
Lemma rangeImages_first (pre post : list models.ImageReference)
      (img : models.ImageReference) (n : string) :
  allNamed pre ->
  (forall x, In x pre -> models.Name x <> Some n) ->
  models.Name img = Some n ->
  forall st, rangeImages (pre ++ img :: post) n st = (Returned (Some img), st).
Proof.
  induction pre as [|x pre IH]; intros Hnamed Hno Himg st; simpl.
  - unfold bind, deref. rewrite Himg, String.eqb_refl. reflexivity.
  - unfold bind, deref.
    destruct (models.Name x) as [m|] eqn:Hx.
    + destruct (String.eqb_spec m n) as [Heq|Hne].
      * exfalso. apply (Hno x); [now left | now rewrite Hx, Heq].
      * apply IH; auto.
        -- intros y Hy. apply Hnamed. now right.
        -- intros y Hy. apply Hno. now right.
    + exfalso. apply (Hnamed x); [now left | exact Hx].
Qed.

(** The scan panics at the first record without a name, when no record of
    the given name comes before it. *)
Lemma rangeImages_nil_name (pre post : list models.ImageReference)
      (x : models.ImageReference) (n : string) :
  allNamed pre ->
  (forall y, In y pre -> models.Name y <> Some n) ->
  models.Name x = None ->
  forall st, rangeImages (pre ++ x :: post) n st = (Panicked, st).
Proof.
  induction pre as [|y pre IH]; intros Hnamed Hno Hx st; simpl.
  - unfold bind, deref. rewrite Hx. reflexivity.
  - unfold bind, deref.
    destruct (models.Name y) as [m|] eqn:Hy.
    + destruct (String.eqb_spec m n) as [Heq|Hne].
      * exfalso. apply (Hno y); [now left | now rewrite Hy, Heq].
      * apply IH; auto.
        -- intros z Hz. apply Hnamed. now right.
        -- intros z Hz. apply Hno. now right.
    + exfalso. apply (Hnamed y); [now left | exact Hy].
Qed.

(** The three ways a scan can end. *)
Lemma rangeImages_cases (l : list models.ImageReference) (n : string) :
  (allNamed l /\
   (forall img, In img l -> models.Name img <> Some n) /\
   forall st, rangeImages l n st = (Returned None, st))
  \/
  (exists pre img post,
     l = pre ++ img :: post /\
     models.Name img = Some n /\
     allNamed pre /\
     (forall x, In x pre -> models.Name x <> Some n) /\
     forall st, rangeImages l n st = (Returned (Some img), st))
  \/
  (exists pre x post,
     l = pre ++ x :: post /\
     models.Name x = None /\
     allNamed pre /\
     (forall y, In y pre -> models.Name y <> Some n) /\
     forall st, rangeImages l n st = (Panicked, st)).
Proof.
  assert (Hnil : allNamed []) by (intros x []).
  assert (Hnil' : forall x : models.ImageReference,
             In x [] -> models.Name x <> Some n) by (intros x []).
  induction l as [|x l IH].
  - left. repeat split; auto.
  - destruct (models.Name x) as [m|] eqn:Hx.
    + destruct (String.eqb_spec m n) as [Heq|Hne].
      * right. left. exists [], x, l. subst m.
        repeat split; auto.
        intros st. now apply (rangeImages_first [] l x n).
      * assert (Hx' : models.Name x <> Some n)
          by (rewrite Hx; intros H; inversion H; contradiction).
        assert (Hx'' : models.Name x <> None) by (rewrite Hx; discriminate).
        assert (Hstep : forall st,
                   rangeImages (x :: l) n st = rangeImages l n st).
        { intros st. simpl. unfold bind, deref. rewrite Hx.
          destruct (String.eqb_spec m n); [contradiction | reflexivity]. }
        destruct IH as [(Hn & Hno & Hrun)
                       |[(pre & img & post & Hl & Himg & Hn & Hno & Hrun)
                        |(pre & y & post & Hl & Hy & Hn & Hno & Hrun)]].
        -- left. repeat split.
           ++ intros y [<-|Hy]; auto.
           ++ intros y [<-|Hy]; auto.
           ++ intros st. rewrite Hstep. apply Hrun.
        -- right. left. exists (x :: pre), img, post. subst l.
           repeat split; auto.
           ++ intros y [<-|Hy]; auto.
           ++ intros y [<-|Hy]; auto.
           ++ intros st. rewrite Hstep. apply Hrun.
        -- right. right. exists (x :: pre), y, post. subst l.
           repeat split; auto.
           ++ intros z [<-|Hz]; auto.
           ++ intros z [<-|Hz]; auto.
           ++ intros st. rewrite Hstep. apply Hrun.
    + right. right. exists [], x, l. repeat split; auto.
      intros st. now apply (rangeImages_nil_name [] l x n).
Qed.

(** Unfolding the monadic plumbing of a method. *)
Ltac run_method :=
  unfold CreateImageCOSBucket, ensureImageUnique, GetImportJob, submitImportJob,
         DeleteImage, DeleteImportJob, SetReady, SetNotReady, SetImageID,
         SetImageState, SetJobID, setStatus, Eventf, Warnf, emit, Info,
         remote, load, deref, bind, ret, outcome, final, nameOf, specOf,
         statusOf in *;
  simpl in *.

(** ** Creation of the image: failure of the listing *)

(** C1.  When the image listing fails, [ensureImageUnique] hands back a nil
    image with the error, and [CreateImageCOSBucket] then dereferences that
    nil image while building the arguments of its warning: the method panics.
    No event is recorded, no error is returned to the caller, and the object
    is left as it was; the only effect is the listing call itself. *)
Theorem CreateImageCOSBucket_listing_failure_panics
        (i : PowerVSImageScope) (st : Store) (e : error) :
  powervs.GetAllImage (IBMPowerVSClient i) = inr e ->
  outcome (CreateImageCOSBucket i st) = Panicked /\
  events (final (CreateImageCOSBucket i st)) = events st /\
  image (final (CreateImageCOSBucket i st)) = image st /\
  calls (final (CreateImageCOSBucket i st)) =
    calls st ++ [powervs.CallGetAllImage].
Proof.
  intros Hlist. run_method. rewrite Hlist. simpl. repeat split.
Qed.

Lemma CreateImageCOSBucket_listing_failure_panics_witness :
  let i := Sample.client (inr Sample.boom) (None, None) None in
  let st := Sample.store "img-a" infrav1beta1.zeroStatus in
  powervs.GetAllImage (IBMPowerVSClient i) = inr Sample.boom /\
  outcome (CreateImageCOSBucket i st) = Panicked /\
  events (final (CreateImageCOSBucket i st)) = [] /\
  image (final (CreateImageCOSBucket i st)) = image st /\
  calls (final (CreateImageCOSBucket i st)) = [powervs.CallGetAllImage].
Proof.
  split; [reflexivity |].
  apply (CreateImageCOSBucket_listing_failure_panics
           (Sample.client (inr Sample.boom) (None, None) None)
           (Sample.store "img-a" infrav1beta1.zeroStatus)
           Sample.boom).
  reflexivity.
Defined.

(** ** Creation of the image: an image of that name exists *)

(** The run up to the end of the scan, for a listing that was obtained. *)
Lemma CreateImageCOSBucket_found_unfold
      (i : PowerVSImageScope) (st : Store) (imgs : models.Images)
      (pre : list models.ImageReference) (img : models.ImageReference) :
  powervs.GetAllImage (IBMPowerVSClient i) = inl imgs ->
  firstMatch imgs (nameOf st) pre img ->
  allNamed pre ->
  CreateImageCOSBucket i st =
    (Returned (Some img, None, None),
     mkStore (image st)
             (events st ++ [record.mkEvent record.Normal
                              "SuccessfulRetriveImage" "Retrieved Image %q"
                              [nameOf st]])
             (logs st ++ ["Image already exists"])
             (calls st ++ [powervs.CallGetAllImage])).
Proof.
  intros Hlist (post & Hl & Himg & Hno) Hnamed.
  unfold CreateImageCOSBucket, ensureImageUnique, bind, load, remote, ret,
         nameOf in *.
  simpl. rewrite Hlist. simpl. rewrite Hl.
  rewrite (rangeImages_first pre post img _ Hnamed Hno Himg). simpl.
  unfold Info, Eventf, emit, deref. simpl. rewrite Himg. reflexivity.
Qed.

(** C5, as stated, fails: the listing holds a record named like the
    resource, but a record without a name is listed before it; the scan
    panics on that record, and nothing is returned or recorded. *)
Lemma existing_image_behind_nil_name_panics :
  let listing := models.mkImages [Sample.unnamed; Sample.imgA] in
  let i := Sample.client (inl listing) (None, None) None in
  let st := Sample.store "img-a" infrav1beta1.zeroStatus in
  powervs.GetAllImage (IBMPowerVSClient i) = inl listing /\
  In Sample.imgA (models.Images_Images listing) /\
  models.Name Sample.imgA = Some (nameOf st) /\
  outcome (CreateImageCOSBucket i st) = Panicked /\
  events (final (CreateImageCOSBucket i st)) = [].
Proof.
  cbv zeta. repeat split. simpl. right. left. reflexivity.
Qed.

(** C5, amended.  When the listing succeeds and holds a record named like
    the resource, and every record listed before the first such record
    carries a name, the method returns that first record with a nil job and
    a nil error, issues no job-creation call (the listing is its only remote
    call) and records exactly one event, a normal one. *)
Theorem CreateImageCOSBucket_existing_image
        (i : PowerVSImageScope) (st : Store) (imgs : models.Images)
        (pre : list models.ImageReference) (img : models.ImageReference) :
  powervs.GetAllImage (IBMPowerVSClient i) = inl imgs ->
  firstMatch imgs (nameOf st) pre img ->
  allNamed pre ->
  outcome (CreateImageCOSBucket i st) = Returned (Some img, None, None) /\
  calls (final (CreateImageCOSBucket i st)) =
    calls st ++ [powervs.CallGetAllImage] /\
  createCalls (calls (final (CreateImageCOSBucket i st))) =
    createCalls (calls st) /\
  events (final (CreateImageCOSBucket i st)) =
    events st ++ [record.mkEvent record.Normal "SuccessfulRetriveImage"
                                 "Retrieved Image %q" [nameOf st]] /\
  image (final (CreateImageCOSBucket i st)) = image st.
Proof.
  intros Hlist Hfirst Hnamed.
  rewrite (CreateImageCOSBucket_found_unfold i st imgs pre img
             Hlist Hfirst Hnamed).
  unfold outcome, final. simpl. repeat split.
  unfold createCalls. rewrite filter_app. simpl. apply app_nil_r.
Qed.

Lemma CreateImageCOSBucket_existing_image_witness :
  let listing := models.mkImages [Sample.imgB; Sample.imgA; Sample.imgA'] in
  let i := Sample.client (inl listing) (None, None) None in
  let st := Sample.store "img-a" infrav1beta1.zeroStatus in
  outcome (CreateImageCOSBucket i st) = Returned (Some Sample.imgA, None, None) /\
  calls (final (CreateImageCOSBucket i st)) = [powervs.CallGetAllImage] /\
  createCalls (calls (final (CreateImageCOSBucket i st))) = [] /\
  events (final (CreateImageCOSBucket i st)) =
    [record.mkEvent record.Normal "SuccessfulRetriveImage"
                    "Retrieved Image %q" ["img-a"]] /\
  image (final (CreateImageCOSBucket i st)) = image st.
Proof.
  apply (CreateImageCOSBucket_existing_image
           (Sample.client
              (inl (models.mkImages [Sample.imgB; Sample.imgA; Sample.imgA']))
              (None, None) None)
           (Sample.store "img-a" infrav1beta1.zeroStatus)
           (models.mkImages [Sample.imgB; Sample.imgA; Sample.imgA'])
           [Sample.imgB] Sample.imgA).
  - reflexivity.
  - exists [Sample.imgA']. split; [reflexivity | split; [reflexivity |]].
    intros x [Hx|[]]. subst x. simpl. discriminate.
  - intros x [Hx|[]]. subst x. simpl. discriminate.
Defined.

(** On the sample listing the record returned is the first of the two that
    carry the name. *)
Example existing_image_takes_first :
  outcome (CreateImageCOSBucket
             (Sample.client
                (inl (models.mkImages [Sample.imgB; Sample.imgA; Sample.imgA']))
                (None, None) None)
             (Sample.store "img-a" infrav1beta1.zeroStatus))
  = Returned (Some Sample.imgA, None, None).
Proof. reflexivity. Qed.

(** ** Creation of the image: the lookup of the last import job *)

(** The calls and the outcome of a run in which the scan reaches the end of
    the listing, up to the decision on the last job. *)
Lemma CreateImageCOSBucket_noMatch_unfold
      (i : PowerVSImageScope) (st : Store) (imgs : models.Images) :
  powervs.GetAllImage (IBMPowerVSClient i) = inl imgs ->
  noMatch imgs (nameOf st) ->
  allNamed (models.Images_Images imgs) ->
  CreateImageCOSBucket i st =
    let sid := infrav1beta1.ServiceInstanceID (specOf st) in
    let st' := mkStore (image st) (events st) (logs st)
                       ((calls st ++ [powervs.CallGetAllImage])
                          ++ [powervs.CallGetCosImages sid]) in
    match fst (powervs.GetCosImages (IBMPowerVSClient i) sid) with
    | Some job =>
        match stateOf job with
        | Some state =>
            if notFinished state
            then (Returned (None, None, None),
                  mkStore (image st) (events st)
                          (logs st ++ [("Previous import job not yet fininshed - "
                                          ++ state)%string])
                          (calls st'))
            else submitImportJob i (infrav1beta1.Meta (image st)) (specOf st) st'
        | None => (Panicked, st')
        end
    | None => submitImportJob i (infrav1beta1.Meta (image st)) (specOf st) st'
    end.
Proof.
  intros Hlist Hno Hnamed.
  unfold CreateImageCOSBucket, ensureImageUnique, GetImportJob, bind, load,
         remote, ret, specOf, nameOf, stateOf in *.
  simpl. rewrite Hlist. simpl.
  rewrite (rangeImages_noMatch _ _ Hnamed Hno). simpl.
  destruct (powervs.GetCosImages (IBMPowerVSClient i)
              (infrav1beta1.ServiceInstanceID (infrav1beta1.Spec (image st))))
    as [[job|] err]; simpl; [|reflexivity].
  unfold deref.
  destruct (models.Job_Status job) as [status|]; simpl; [|reflexivity].
  destruct (models.State status) as [state|]; simpl; [|reflexivity].
  destruct (notFinished state); reflexivity.
Qed.

(** The job-creation tail issues one creation call and no job lookup. *)
Lemma submitImportJob_calls
      (i : PowerVSImageScope) (m : infrav1beta1.ObjectMeta)
      (s : infrav1beta1.IBMPowerVSImageSpec) (st : Store) :
  calls (final (submitImportJob i m s st)) =
    calls st ++ [powervs.CallCreateCosImage (importBody m s)].
Proof.
  unfold submitImportJob, bind, remote, Info, Warnf, Eventf, emit, ret, final,
         deref.
  simpl.
  destruct (powervs.CreateCosImage (IBMPowerVSClient i) (importBody m s))
    as [jobRef|err]; [|reflexivity].
  simpl. destruct (models.ID jobRef); reflexivity.
Qed.

(** Its outcome is decided by the reply to that call; a job reference
    without an identity makes it panic. *)
Lemma submitImportJob_outcome
      (i : PowerVSImageScope) (m : infrav1beta1.ObjectMeta)
      (s : infrav1beta1.IBMPowerVSImageSpec) (st : Store) :
  outcome (submitImportJob i m s st) =
    match powervs.CreateCosImage (IBMPowerVSClient i) (importBody m s) with
    | inl jobRef =>
        match models.ID jobRef with
        | Some _ => Returned (None, Some jobRef, None)
        | None => Panicked
        end
    | inr err => Returned (None, None, Some err)
    end.
Proof.
  unfold submitImportJob, bind, remote, Info, Warnf, Eventf, emit, ret, outcome,
         deref.
  simpl.
  destruct (powervs.CreateCosImage (IBMPowerVSClient i) (importBody m s))
    as [jobRef|err]; [|reflexivity].
  simpl. destruct (models.ID jobRef); reflexivity.
Qed.

(** What it records: one event for a request that was answered, none when it
    panics. *)
Lemma submitImportJob_events
      (i : PowerVSImageScope) (m : infrav1beta1.ObjectMeta)
      (s : infrav1beta1.IBMPowerVSImageSpec) (st : Store) :
  events (final (submitImportJob i m s st)) =
    match powervs.CreateCosImage (IBMPowerVSClient i) (importBody m s) with
    | inl jobRef =>
        match models.ID jobRef with
        | Some id =>
            events st ++ [record.mkEvent record.Normal
                            "SuccessfulCreateImageImportJob"
                            "Created image import job %q" [id]]
        | None => events st
        end
    | inr err =>
        events st ++ [record.mkEvent record.Warning
                        "FailedCreateImageImportJob"
                        "Failed image import job creation - %v" [Error err]]
    end.
Proof.
  unfold submitImportJob, bind, remote, Info, Warnf, Eventf, emit, ret, final,
         deref.
  simpl.
  destruct (powervs.CreateCosImage (IBMPowerVSClient i) (importBody m s))
    as [jobRef|err]; [|reflexivity].
  simpl. destruct (models.ID jobRef); reflexivity.
Qed.

Lemma jobQueryKeys_app (xs ys : list powervs.Call) :
  jobQueryKeys (xs ++ ys) = jobQueryKeys xs ++ jobQueryKeys ys.
Proof. unfold jobQueryKeys. apply flat_map_app. Qed.

(** C3, as stated, fails: with job identity "job-1" recorded in the status
    and service instance "svc-1" in the spec, the one job lookup of the run
    is keyed "svc-1".  And when the listing holds a record without a name,
    no record matches, yet the scan panics and no job is looked up at
    all. *)
Lemma job_lookup_not_keyed_by_stored_JobID :
  let i := Sample.client (inl (models.mkImages [Sample.imgB])) (None, None) None in
  let i' := Sample.client (inl (models.mkImages [Sample.unnamed]))
                          (None, None) None in
  let st := Sample.store "img-a" Sample.tracked in
  (powervs.GetAllImage (IBMPowerVSClient i) = inl (models.mkImages [Sample.imgB]) /\
   noMatch (models.mkImages [Sample.imgB]) (nameOf st) /\
   infrav1beta1.JobID (statusOf st) = "job-1" /\
   jobQueryKeys (calls (final (CreateImageCOSBucket i st))) = ["svc-1"] /\
   jobQueryKeys (calls (final (CreateImageCOSBucket i st)))
     <> [infrav1beta1.JobID (statusOf st)]) /\
  (powervs.GetAllImage (IBMPowerVSClient i') =
     inl (models.mkImages [Sample.unnamed]) /\
   noMatch (models.mkImages [Sample.unnamed]) (nameOf st) /\
   outcome (CreateImageCOSBucket i' st) = Panicked /\
   jobQueryKeys (calls (final (CreateImageCOSBucket i' st))) = []).
Proof.
  cbv zeta. repeat split; try reflexivity.
  - intros img [Himg|[]]. subst img. simpl. discriminate.
  - vm_compute. discriminate.
  - intros img [Himg|[]]. subst img. simpl. discriminate.
Qed.

(** C3, amended.  When no record matches and every listed record carries a
    name, the last import job is looked up exactly once, by the service
    instance identity of the spec; the job identity recorded in the status
    plays no part, and recording another one beforehand does not change the
    outcome. *)
Theorem CreateImageCOSBucket_job_lookup_key
        (i : PowerVSImageScope) (st : Store) (imgs : models.Images) :
  powervs.GetAllImage (IBMPowerVSClient i) = inl imgs ->
  noMatch imgs (nameOf st) ->
  allNamed (models.Images_Images imgs) ->
  jobQueryKeys (calls (final (CreateImageCOSBucket i st))) =
    jobQueryKeys (calls st) ++ [infrav1beta1.ServiceInstanceID (specOf st)] /\
  forall jid,
    outcome (CreateImageCOSBucket i (final (SetJobID i jid st))) =
    outcome (CreateImageCOSBucket i st).
Proof.
  intros Hlist Hno Hnamed. split.
  - rewrite (CreateImageCOSBucket_noMatch_unfold i st imgs Hlist Hno Hnamed).
    cbv zeta.
    assert (Hkeys :
      jobQueryKeys ((calls st ++ [powervs.CallGetAllImage]) ++
                    [powervs.CallGetCosImages
                       (infrav1beta1.ServiceInstanceID (specOf st))]) =
      jobQueryKeys (calls st) ++ [infrav1beta1.ServiceInstanceID (specOf st)]).
    { rewrite !jobQueryKeys_app. simpl. now rewrite app_nil_r. }
    assert (Hsub : forall st',
      calls st' = (calls st ++ [powervs.CallGetAllImage]) ++
                  [powervs.CallGetCosImages
                     (infrav1beta1.ServiceInstanceID (specOf st))] ->
      jobQueryKeys (calls (final (submitImportJob i
                                    (infrav1beta1.Meta (image st))
                                    (specOf st) st'))) =
      jobQueryKeys (calls st) ++ [infrav1beta1.ServiceInstanceID (specOf st)]).
    { intros st' Hst'. rewrite submitImportJob_calls, jobQueryKeys_app, Hst'.
      simpl. rewrite app_nil_r. exact Hkeys. }
    destruct (fst (powervs.GetCosImages (IBMPowerVSClient i)
                     (infrav1beta1.ServiceInstanceID (specOf st)))) as [job|].
    + destruct (stateOf job) as [state|].
      * destruct (notFinished state).
        -- unfold final. simpl. exact Hkeys.
        -- now apply Hsub.
      * unfold final. simpl. exact Hkeys.
    + now apply Hsub.
  - intros jid.
    rewrite (CreateImageCOSBucket_noMatch_unfold i st imgs Hlist Hno Hnamed).
    rewrite (CreateImageCOSBucket_noMatch_unfold
               i (final (SetJobID i jid st)) imgs Hlist Hno Hnamed).
    cbv zeta. unfold specOf, final, SetJobID, setStatus. simpl.
    destruct (fst (powervs.GetCosImages (IBMPowerVSClient i)
                     (infrav1beta1.ServiceInstanceID
                        (infrav1beta1.Spec (image st))))) as [job|].
    + destruct (stateOf job) as [state|]; [|reflexivity].
      destruct (notFinished state).
      * reflexivity.
      * now rewrite !submitImportJob_outcome.
    + now rewrite !submitImportJob_outcome.
Qed.

Lemma CreateImageCOSBucket_job_lookup_key_witness :
  let i := Sample.client (inl (models.mkImages [Sample.imgB]))
                         (Some (Sample.jobIn "in-progress"), None) None in
  let st := Sample.store "img-a" Sample.tracked in
  jobQueryKeys (calls (final (CreateImageCOSBucket i st))) = ["svc-1"] /\
  forall jid,
    outcome (CreateImageCOSBucket i (final (SetJobID i jid st))) =
    outcome (CreateImageCOSBucket i st).
Proof.
  apply (CreateImageCOSBucket_job_lookup_key
           (Sample.client (inl (models.mkImages [Sample.imgB]))
                          (Some (Sample.jobIn "in-progress"), None) None)
           (Sample.store "img-a" Sample.tracked)
           (models.mkImages [Sample.imgB])).
  - reflexivity.
  - intros img [Himg|[]]. subst img. simpl. discriminate.
  - intros img [Himg|[]]. subst img. simpl. discriminate.
Defined.

(** ** Creation of the image: the state of the last import job *)



Lemma createCalls_app (xs ys : list powervs.Call) :
  createCalls (xs ++ ys) = createCalls xs ++ createCalls ys.
Proof. unfold createCalls. apply filter_app. Qed.










(** ** Creation of the image: the shape of the result *)

(** The three kinds of listing, as the scan meets them. *)
Lemma listing_cases (imgs : models.Images) (n : string) :
  (noMatch imgs n /\ allNamed (models.Images_Images imgs))
  \/
  (exists pre img, firstMatch imgs n pre img /\ allNamed pre)
  \/
  (exists pre, nilNameFirst imgs n pre).
Proof.
  destruct (rangeImages_cases (models.Images_Images imgs) n)
    as [(Hn & Hno & Hrun)
       |[(pre & img & post & Hl & Himg & Hn & Hno & Hrun)
        |(pre & x & post & Hl & Hx & Hn & Hno & Hrun)]].
  - left. split; assumption.
  - right. left. exists pre, img. split; [|assumption].
    exists post. auto.
  - right. right. exists pre, x, post. auto.
Qed.

(** A record without a name that the scan reaches makes the run panic,
    with the listing as its only call. *)
Lemma CreateImageCOSBucket_nil_name_unfold
      (i : PowerVSImageScope) (st : Store) (imgs : models.Images)
      (pre : list models.ImageReference) :
  powervs.GetAllImage (IBMPowerVSClient i) = inl imgs ->
  nilNameFirst imgs (nameOf st) pre ->
  CreateImageCOSBucket i st =
    (Panicked,
     mkStore (image st) (events st) (logs st)
             (calls st ++ [powervs.CallGetAllImage])).
Proof.
  intros Hlist (x & post & Hl & Hx & Hn & Hno).
  unfold CreateImageCOSBucket, ensureImageUnique, bind, load, remote, ret,
         nameOf in *.
  simpl. rewrite Hlist. simpl. rewrite Hl.
  rewrite (rangeImages_nil_name pre post x _ Hn Hno Hx). reflexivity.
Qed.

(** C7.  Whatever the client answers, a run of the method that returns never
    returns both an image reference and a job reference. *)
Theorem CreateImageCOSBucket_never_both_references
        (i : PowerVSImageScope) (st : Store) :
  match outcome (CreateImageCOSBucket i st) with
  | Returned r => bothRefs r = false
  | Panicked => True
  end.
Proof.
  destruct (powervs.GetAllImage (IBMPowerVSClient i)) as [imgs|e] eqn:Hlist.
  - destruct (listing_cases imgs (nameOf st))
      as [[Hno Hnamed]|[(pre & img & Hfirst & Hnamed)|[pre Hnil]]].
    + rewrite (CreateImageCOSBucket_noMatch_unfold i st imgs Hlist Hno Hnamed).
      cbv zeta.
      destruct (fst (powervs.GetCosImages (IBMPowerVSClient i)
                       (infrav1beta1.ServiceInstanceID (specOf st))))
        as [job|].
      * destruct (stateOf job) as [state|]; [|exact I].
        destruct (notFinished state); [reflexivity|].
        rewrite submitImportJob_outcome.
        destruct (powervs.CreateCosImage _ _) as [jobRef|err];
          [destruct (models.ID jobRef)|]; simpl; auto.
      * rewrite submitImportJob_outcome.
        destruct (powervs.CreateCosImage _ _) as [jobRef|err];
          [destruct (models.ID jobRef)|]; simpl; auto.
    + rewrite (CreateImageCOSBucket_found_unfold i st imgs pre img
                 Hlist Hfirst Hnamed).
      reflexivity.
    + rewrite (CreateImageCOSBucket_nil_name_unfold i st imgs pre Hlist Hnil).
      exact I.
  - run_method. rewrite Hlist. exact I.
Qed.

(** Runs of each kind exist: on the sample data the method returns an image
    alone, a job alone, and neither. *)
Example result_shapes :
  let st := Sample.store "img-a" infrav1beta1.zeroStatus in
  outcome (CreateImageCOSBucket
             (Sample.client (inl (models.mkImages [Sample.imgA]))
                            (None, None) None) st) =
    Returned (Some Sample.imgA, None, None) /\
  outcome (CreateImageCOSBucket
             (Sample.client (inl (models.mkImages [Sample.imgB]))
                            (None, None) None) st) =
    Returned (None, Some (models.mkJobReference (Some "job-2")), None) /\
  outcome (CreateImageCOSBucket
             (Sample.client (inl (models.mkImages [Sample.imgB]))
                            (Some (Sample.jobIn "queued"), None) None) st) =
    Returned (None, None, None).
Proof. repeat split. Qed.

(** ** Deletion *)

(** C8.  When the remote deletion of the image (of the import job) fails,
    [DeleteImage] ([DeleteImportJob]) records one warning carrying the
    error, returns the error, and leaves the whole object, hence every field
    of its status, as it was; the deletion was requested with the recorded
    image (job) identity. *)
Theorem delete_failure_keeps_status (i : PowerVSImageScope) (st : Store) :
  (forall err,
     powervs.DeleteImage (IBMPowerVSClient i)
       (infrav1beta1.ImageID (statusOf st)) = Some err ->
     DeleteImage i st =
       (Returned (Some err),
        mkStore (image st)
                (events st ++ [record.mkEvent record.Warning "FailedDeleteImage"
                                 "Failed image deletion - %v" [Error err]])
                (logs st)
                (calls st ++ [powervs.CallDeleteImage
                                (infrav1beta1.ImageID (statusOf st))]))) /\
  (forall err,
     powervs.DeleteJob (IBMPowerVSClient i)
       (infrav1beta1.JobID (statusOf st)) = Some err ->
     DeleteImportJob i st =
       (Returned (Some err),
        mkStore (image st)
                (events st ++ [record.mkEvent record.Warning
                                 "FailedDeleteImageImoprtJob"
                                 "Failed image import job deletion - %v"
                                 [Error err]])
                (logs st)
                (calls st ++ [powervs.CallDeleteJob
                                (infrav1beta1.JobID (statusOf st))]))).
Proof.
  split; intros err Hdel; run_method; rewrite Hdel; reflexivity.
Qed.

Lemma delete_failure_keeps_status_witness :
  let i := Sample.client (inl (models.mkImages [])) (None, None)
                         (Some Sample.boom) in
  let st := Sample.store "img-a" Sample.imported in
  (outcome (DeleteImage i st) = Returned (Some Sample.boom) /\
   statusOf (final (DeleteImage i st)) = Sample.imported /\
   map record.isWarning (events (final (DeleteImage i st))) = [true]) /\
  (outcome (DeleteImportJob i st) = Returned (Some Sample.boom) /\
   statusOf (final (DeleteImportJob i st)) = Sample.imported /\
   map record.isWarning (events (final (DeleteImportJob i st))) = [true]).
Proof.
  destruct (delete_failure_keeps_status
              (Sample.client (inl (models.mkImages [])) (None, None)
                             (Some Sample.boom))
              (Sample.store "img-a" Sample.imported)) as [Himg Hjob].
  split.
  - rewrite (Himg Sample.boom); [repeat split | reflexivity].
  - rewrite (Hjob Sample.boom); [repeat split | reflexivity].
Defined.

(** ** The status accessors *)

(** C9.  [SetImageID] on a nil pointer returns without panicking and leaves
    the store, hence every status field, as it was; on a pointer to a string
    it overwrites the image identity with that string and nothing else. *)
Theorem SetImageID_nil_is_noop (i : PowerVSImageScope) (st : Store) :
  SetImageID i None st = (Returned tt, st) /\
  forall s,
    outcome (SetImageID i (Some s) st) = Returned tt /\
    statusOf (final (SetImageID i (Some s) st)) =
      infrav1beta1.mkStatus (infrav1beta1.Ready (statusOf st)) s
                            (infrav1beta1.ImageState (statusOf st))
                            (infrav1beta1.JobID (statusOf st)) /\
    infrav1beta1.Meta (image (final (SetImageID i (Some s) st))) =
      infrav1beta1.Meta (image st) /\
    infrav1beta1.Spec (image (final (SetImageID i (Some s) st))) =
      infrav1beta1.Spec (image st) /\
    events (final (SetImageID i (Some s) st)) = events st /\
    logs (final (SetImageID i (Some s) st)) = logs st /\
    calls (final (SetImageID i (Some s) st)) = calls st.
Proof.
  split; [reflexivity|]. intros s. repeat split.
Qed.

(** C2, as stated, fails: from the zero status, one call of [SetReady]
    reaches a state that is ready with an empty image identity; and one call
    of [SetImageID] reaches a state with an identity that is not ready. *)
Lemma reachable_ready_without_ImageID :
  let i := Sample.client (inl (models.mkImages [])) (None, None) None in
  let st0 := Sample.store "img-a" infrav1beta1.zeroStatus in
  (reachable i (exec i OpSetReady st0) /\
   ~ readyIffImageID (statusOf (exec i OpSetReady st0))) /\
  (reachable i (exec i (OpSetImageID (Some "123")) st0) /\
   ~ readyIffImageID (statusOf (exec i (OpSetImageID (Some "123")) st0))).
Proof.
  cbv zeta. split; split.
  - apply reach_step, reach_init. reflexivity.
  - unfold readyIffImageID. simpl. intros [H _].
    apply H; reflexivity.
  - apply reach_step, reach_init. reflexivity.
  - unfold readyIffImageID. simpl. intros [_ H].
    assert (Hf : false = true) by (apply H; discriminate).
    discriminate.
Qed.

(** What each operation does to the status. *)
Lemma exec_status (i : PowerVSImageScope) (op : Op) (st : Store) :
  statusOf (exec i op st) =
    let s := statusOf st in
    match op with
    | OpSetReady =>
        infrav1beta1.mkStatus true (infrav1beta1.ImageID s)
                              (infrav1beta1.ImageState s) (infrav1beta1.JobID s)
    | OpSetNotReady =>
        infrav1beta1.mkStatus false (infrav1beta1.ImageID s)
                              (infrav1beta1.ImageState s) (infrav1beta1.JobID s)
    | OpSetImageID (Some id) =>
        infrav1beta1.mkStatus (infrav1beta1.Ready s) id
                              (infrav1beta1.ImageState s) (infrav1beta1.JobID s)
    | OpSetImageState state =>
        infrav1beta1.mkStatus (infrav1beta1.Ready s) (infrav1beta1.ImageID s)
                              state (infrav1beta1.JobID s)
    | OpSetJobID id =>
        infrav1beta1.mkStatus (infrav1beta1.Ready s) (infrav1beta1.ImageID s)
                              (infrav1beta1.ImageState s) id
    | OpSetImageID None | OpDeleteImage | OpDeleteImportJob => s
    end.
Proof.
  destruct op as [| |[id|]| | | |]; try reflexivity.
  - unfold exec, final, statusOf, DeleteImage, bind, load, remote. simpl.
    destruct (powervs.DeleteImage (IBMPowerVSClient i)
                (infrav1beta1.ImageID (infrav1beta1.Status (image st))));
      reflexivity.
  - unfold exec, final, statusOf, DeleteImportJob, bind, load, remote. simpl.
    destruct (powervs.DeleteJob (IBMPowerVSClient i)
                (infrav1beta1.JobID (infrav1beta1.Status (image st))));
      reflexivity.
Qed.

(** Readiness and image identity after a sequence of operations are those
    written last. *)
Lemma execAll_last_writes (i : PowerVSImageScope) (ops : list Op) :
  forall st,
    infrav1beta1.Ready (statusOf (execAll i ops st)) =
      lastReady (infrav1beta1.Ready (statusOf st)) ops /\
    infrav1beta1.ImageID (statusOf (execAll i ops st)) =
      lastImageID (infrav1beta1.ImageID (statusOf st)) ops.
Proof.
  induction ops as [|op ops IH]; intros st.
  - split; reflexivity.
  - change (execAll i (op :: ops) st) with (execAll i ops (exec i op st)).
    destruct (IH (exec i op st)) as [Hr Hid]. rewrite Hr, Hid.
    rewrite exec_status. cbv zeta.
    destruct op as [| |[id|]| | | |]; simpl; split; reflexivity.
Qed.

(** C2, amended.  From the zero status and after any sequence of the
    scope's operations, Ready is what the last [SetReady] or [SetNotReady]
    wrote (false when there is none) and the image identity is the string
    that the last [SetImageID] on a non-nil pointer wrote (empty when there
    is none); no other operation writes either.  So Ready holds exactly when
    an identity is recorded in the states, and only in the states, whose
    last two such writes agree: after [SetImageID] on "123" followed by
    [SetReady], say, but neither between those two calls nor after
    [SetReady] alone. *)
Theorem readyIffImageID_last_writes
        (i : PowerVSImageScope) (ops : list Op) (st : Store) :
  initial st ->
  infrav1beta1.Ready (statusOf (execAll i ops st)) = lastReady false ops /\
  infrav1beta1.ImageID (statusOf (execAll i ops st)) = lastImageID "" ops /\
  (readyIffImageID (statusOf (execAll i ops st)) <->
   lastReady false ops = negb (String.eqb (lastImageID "" ops) "")).
Proof.
  intros Hinit. unfold initial in Hinit.
  destruct (execAll_last_writes i ops st) as [Hr Hid].
  rewrite Hinit in Hr, Hid. simpl in Hr, Hid.
  split; [exact Hr | split; [exact Hid |]].
  unfold readyIffImageID. rewrite Hr, Hid.
  destruct (String.eqb_spec (lastImageID "" ops) "") as [He|Hne];
    destruct (lastReady false ops); simpl;
    intuition (try discriminate; try congruence).
Qed.

Lemma readyIffImageID_last_writes_witness :
  let i := Sample.client (inl (models.mkImages [])) (None, None)
                         (Some Sample.boom) in
  let st := Sample.store "img-a" infrav1beta1.zeroStatus in
  let importing := [OpSetJobID "job-1"; OpSetImageState "importing";
                    OpSetImageID (Some "123")] in
  let imported := importing ++ [OpSetImageState "available"; OpSetReady] in
  let deleted := imported ++ [OpDeleteImage; OpSetImageID (Some "");
                              OpSetNotReady; OpDeleteImportJob] in
  initial st /\
  ~ readyIffImageID (statusOf (execAll i importing st)) /\
  (infrav1beta1.Ready (statusOf (execAll i imported st)) = true /\
   infrav1beta1.ImageID (statusOf (execAll i imported st)) = "123" /\
   readyIffImageID (statusOf (execAll i imported st))) /\
  (infrav1beta1.Ready (statusOf (execAll i deleted st)) = false /\
   infrav1beta1.ImageID (statusOf (execAll i deleted st)) = "" /\
   readyIffImageID (statusOf (execAll i deleted st))).
Proof.
  cbv zeta.
  assert (Hinit : initial (Sample.store "img-a" infrav1beta1.zeroStatus))
    by reflexivity.
  split; [exact Hinit | split; [| split]].
  - intros H.
    apply (readyIffImageID_last_writes
             (Sample.client (inl (models.mkImages [])) (None, None)
                            (Some Sample.boom))
             [OpSetJobID "job-1"; OpSetImageState "importing";
              OpSetImageID (Some "123")]
             (Sample.store "img-a" infrav1beta1.zeroStatus) Hinit) in H.
    simpl in H. discriminate.
  - destruct (readyIffImageID_last_writes
                (Sample.client (inl (models.mkImages [])) (None, None)
                               (Some Sample.boom))
                ([OpSetJobID "job-1"; OpSetImageState "importing";
                  OpSetImageID (Some "123")]
                   ++ [OpSetImageState "available"; OpSetReady])
                (Sample.store "img-a" infrav1beta1.zeroStatus) Hinit)
      as (Hr & Hid & Hiff).
    split; [exact Hr | split; [exact Hid |]].
    apply Hiff. reflexivity.
  - destruct (readyIffImageID_last_writes
                (Sample.client (inl (models.mkImages [])) (None, None)
                               (Some Sample.boom))
                (([OpSetJobID "job-1"; OpSetImageState "importing";
                   OpSetImageID (Some "123")]
                    ++ [OpSetImageState "available"; OpSetReady])
                   ++ [OpDeleteImage; OpSetImageID (Some "");
                       OpSetNotReady; OpDeleteImportJob])
                (Sample.store "img-a" infrav1beta1.zeroStatus) Hinit)
      as (Hr & Hid & Hiff).
    split; [exact Hr | split; [exact Hid |]].
    apply Hiff. reflexivity.
Defined.

(** ** The constructor *)

Ltac run_setup :=
  unfold NewPowerVSImageScope, bindS, external, retS, derefS, resultOf,
         traceOf, methodsScope in *;
  simpl in *.

(** Splitting a run of the constructor along the replies it receives. *)
Ltac split_replies :=
  repeat match goal with
         | |- context [match ?x with _ => _ end] =>
             lazymatch x with
             | context [match _ with _ => _ end] => fail
             | _ => destruct x eqn:?; simpl
             end
         end.

(** X1.  The constructor checks its arguments before anything else, the
    client first: without a client it returns the freshly allocated, empty
    scope with the nil-client error, whatever the image; with a client but
    without an image it returns a scope holding the client alone with the
    nil-image error.  Neither case makes any call. *)
Theorem NewPowerVSImageScope_rejects_nil_arguments
        (env : Env) (p : params.PowerVSImageScopeParams)
        (tr : list SetupCall) :
  (params.Client p = None ->
   NewPowerVSImageScope env p tr =
     (Returned (alloc.zero,
                Some (mkError "failed to generate new scope from nil Client")),
      tr)) /\
  (forall cl,
     params.Client p = Some cl ->
     params.IBMPowerVSImage p = None ->
     NewPowerVSImageScope env p tr =
       (Returned (alloc.mkScope logr.Zero (Some cl) None None None,
                  Some (mkError
                    "failed to generate new scope from nil IBMPowerVSImage")),
        tr)).
Proof.
  split.
  - intros Hc. unfold NewPowerVSImageScope. rewrite Hc. reflexivity.
  - intros cl Hc Hi. unfold NewPowerVSImageScope. rewrite Hc, Hi. reflexivity.
Qed.

Lemma NewPowerVSImageScope_rejects_nil_arguments_witness :
  let env := SampleEnv.ok (Some "us-south-1") in
  resultOf (NewPowerVSImageScope env
              (params.mkParams None logr.Zero None) []) =
    Returned (alloc.zero,
              Some (mkError "failed to generate new scope from nil Client")) /\
  NewPowerVSImageScope env
    (params.mkParams (Some (ctrlclient.Handle 1)) logr.Zero None) [] =
    (Returned (alloc.mkScope logr.Zero (Some (ctrlclient.Handle 1))
                             None None None,
               Some (mkError
                 "failed to generate new scope from nil IBMPowerVSImage")),
     []).
Proof.
  split.
  - unfold resultOf.
    rewrite (proj1 (NewPowerVSImageScope_rejects_nil_arguments
                      (SampleEnv.ok (Some "us-south-1"))
                      (params.mkParams None logr.Zero None) []));
      reflexivity.
  - apply (proj2 (NewPowerVSImageScope_rejects_nil_arguments
                    (SampleEnv.ok (Some "us-south-1"))
                    (params.mkParams (Some (ctrlclient.Handle 1)) logr.Zero None)
                    [])); reflexivity.
Defined.

(** X2.  A run of the constructor that returns hands back a nil error
    exactly when the scope carries a PowerVS client; a scope returned with
    an error is never one the methods can run on.  With a nil error, the
    client, the patch helper and the image of the scope are all set. *)
Theorem NewPowerVSImageScope_error_iff_no_client
        (env : Env) (p : params.PowerVSImageScopeParams)
        (tr : list SetupCall) :
  match resultOf (NewPowerVSImageScope env p tr) with
  | Returned (scope, None) =>
      methodsScope scope <> None /\
      alloc.client scope = params.Client p /\
      alloc.client scope <> None /\
      alloc.patchHelper scope <> None /\
      alloc.IBMPowerVSImage scope = params.IBMPowerVSImage p /\
      alloc.IBMPowerVSImage scope <> None
  | Returned (scope, Some _) =>
      methodsScope scope = None /\ alloc.IBMPowerVSClient scope = None
  | Panicked => True
  end.
Proof.
  destruct p as [[cl|] lg [obj|]]; run_setup; auto.
  split_replies; auto; repeat split; try discriminate; auto.
Qed.

(** X3.  When every collaborator answers, the constructor makes its seven
    calls in the order of its text and returns, with a nil error, a scope
    carrying the supplied client and image, the helper and the PowerVS client
    it was given.  The resource instance is looked up by the service
    instance identity of the spec; the PowerVS client is requested for that
    same identity, in the zone named by the region identity of the resource
    instance and the region derived from it. *)
Theorem NewPowerVSImageScope_success
        (env : Env) (cl : ctrlclient.Client) (lg : logr.Logger)
        (obj : infrav1beta1.IBMPowerVSImage) (tr : list SetupCall)
        (helper : patch.Helper) (auth : core.Authenticator) (account : string)
        (rc : resourcecontroller.Service) (zone region : string)
        (c : powervs.PowerVS) :
  let sid := infrav1beta1.ServiceInstanceID (infrav1beta1.Spec obj) in
  let logger := if logr.isZero lg then klogr_New else lg in
  let lookup := resourcecontrollerv2.mkGetResourceInstanceOptions (Some sid) in
  let options :=
    mkServiceOptions
      (Some (ibmpisession.mkIBMPIOptions (debugEnabled env logger)
                                         account region zone)) sid in
  patch_NewHelper env obj cl = inl helper ->
  authenticator_GetAuthenticator env = inl auth ->
  servicesutils_GetAccount env auth = inl account ->
  resourcecontroller_NewService env = inl rc ->
  resourcecontroller.GetResourceInstance rc lookup =
    inl (resourcecontrollerv2.mkResourceInstance (Some zone)) ->
  utils_GetRegion env zone = inl region ->
  powervs_NewService env options = inl c ->
  NewPowerVSImageScope env (params.mkParams (Some cl) lg (Some obj)) tr =
    (Returned (alloc.mkScope logger (Some cl) (Some helper) (Some c) (Some obj),
               None),
     tr ++ [CallNewHelper obj cl; CallGetAuthenticator; CallGetAccount auth;
            CallNewResourceController; CallGetResourceInstance lookup;
            CallGetRegion zone; CallNewPowerVS options]).
Proof.
  intros sid logger lookup options H1 H2 H3 H4 H5 H6 H7.
  run_setup. rewrite H1. simpl. rewrite H2. simpl. rewrite H3. simpl.
  rewrite H4. simpl. fold sid. fold lookup. rewrite H5. simpl.
  rewrite H6. simpl. fold logger. fold options. rewrite H7. simpl.
  rewrite <- !app_assoc. reflexivity.
Qed.

Lemma NewPowerVSImageScope_success_witness :
  let env := SampleEnv.ok (Some "us-south-1") in
  let lookup := resourcecontrollerv2.mkGetResourceInstanceOptions (Some "svc-1") in
  let options :=
    mkServiceOptions
      (Some (ibmpisession.mkIBMPIOptions false "account-1" "us-south"
                                         "us-south-1")) "svc-1" in
  NewPowerVSImageScope env SampleEnv.full [] =
    (Returned (alloc.mkScope klogr_New (Some (ctrlclient.Handle 1))
                             (Some SampleEnv.helper) (Some SampleEnv.pvs)
                             (Some SampleEnv.obj),
               None),
     [CallNewHelper SampleEnv.obj (ctrlclient.Handle 1); CallGetAuthenticator;
      CallGetAccount (core.Auth "key"); CallNewResourceController;
      CallGetResourceInstance lookup; CallGetRegion "us-south-1";
      CallNewPowerVS options]).
Proof.
  apply (NewPowerVSImageScope_success
           (SampleEnv.ok (Some "us-south-1")) (ctrlclient.Handle 1) logr.Zero
           SampleEnv.obj [] SampleEnv.helper (core.Auth "key") "account-1"
           (SampleEnv.rc (Some "us-south-1")) "us-south-1" "us-south"
           SampleEnv.pvs); reflexivity.
Defined.

(** X4.  The error of a failed construction is that of the last call made.
    A run that made no call failed on its arguments.  Otherwise the last
    call is the one that failed: its cause is returned under the message of
    that step, followed by a colon and the cause's own message; except that
    the failure to start the resource controller is returned as it is, and
    the failure to build the PowerVS client is replaced by a fixed message
    that drops the cause. *)
Theorem NewPowerVSImageScope_error_provenance
        (env : Env) (p : params.PowerVSImageScopeParams) :
  match resultOf (NewPowerVSImageScope env p []) with
  | Returned (_, Some e) =>
      match rev (traceOf (NewPowerVSImageScope env p [])) with
      | [] =>
          e = mkError "failed to generate new scope from nil Client" \/
          e = mkError "failed to generate new scope from nil IBMPowerVSImage"
      | CallNewHelper obj cl :: _ =>
          exists cause,
            patch_NewHelper env obj cl = inr cause /\
            Error e = ("failed to init patch helper: " ++ Error cause)%string
      | CallGetAuthenticator :: _ =>
          exists cause,
            authenticator_GetAuthenticator env = inr cause /\
            Error e = ("failed to get authenticator: " ++ Error cause)%string
      | CallGetAccount auth :: _ =>
          exists cause,
            servicesutils_GetAccount env auth = inr cause /\
            Error e = ("failed to get account: " ++ Error cause)%string
      | CallNewResourceController :: _ =>
          resourcecontroller_NewService env = inr e
      | CallGetResourceInstance opts :: _ =>
          exists rc cause,
            resourcecontroller_NewService env = inl rc /\
            resourcecontroller.GetResourceInstance rc opts = inr cause /\
            Error e = ("failed to get resource instance: " ++ Error cause)%string
      | CallGetRegion zone :: _ =>
          exists cause,
            utils_GetRegion env zone = inr cause /\
            Error e = ("failed to get region: " ++ Error cause)%string
      | CallNewPowerVS opts :: _ =>
          (exists cause, powervs_NewService env opts = inr cause) /\
          e = mkError "failed to create NewIBMPowerVSClient"
      end
  | _ => True
  end.
Proof.
  destruct p as [[cl|] lg [obj|]]; run_setup; auto.
  split_replies; auto; eauto.
Qed.

(** The two steps whose cause is not wrapped, on sample environments: the
    cause of the resource controller comes back as it is, that of the
    PowerVS client is lost. *)
Example NewPowerVSImageScope_unwrapped_samples :
  resultOf (NewPowerVSImageScope (SampleEnv.noResourceController Sample.boom)
                                 SampleEnv.full []) =
    Returned (alloc.mkScope klogr_New (Some (ctrlclient.Handle 1))
                            (Some SampleEnv.helper) None (Some SampleEnv.obj),
              Some Sample.boom) /\
  resultOf (NewPowerVSImageScope (SampleEnv.noPowerVS Sample.boom)
                                 SampleEnv.full []) =
    Returned (alloc.mkScope klogr_New (Some (ctrlclient.Handle 1))
                            (Some SampleEnv.helper) None (Some SampleEnv.obj),
              Some (mkError "failed to create NewIBMPowerVSClient")).
Proof. split; reflexivity. Qed.

(** X5.  The constructor makes its calls in the order of its text and stops
    at the first that fails: the calls of a run are the first [k] steps, all
    seven when it succeeds, and the first five when it panics. *)
Theorem NewPowerVSImageScope_calls_in_order
        (env : Env) (p : params.PowerVSImageScopeParams)
        (tr : list SetupCall) :
  exists cs k,
    traceOf (NewPowerVSImageScope env p tr) = tr ++ cs /\
    map step cs = seq 1 k /\
    k <= 7 /\
    match resultOf (NewPowerVSImageScope env p tr) with
    | Returned (_, None) => k = 7
    | Returned (_, Some _) => True
    | Panicked => k = 5
    end.
Proof.
  destruct p as [[cl|] lg [obj|]]; run_setup;
    try solve [exists [], 0; rewrite app_nil_r; repeat split; auto using le_0_n].
  split_replies; rewrite <- ?app_assoc; simpl;
    eexists; 
    first [ exists 1; split; [reflexivity | repeat split; repeat constructor; fail]
          | exists 2; split; [reflexivity | repeat split; repeat constructor; fail]
          | exists 3; split; [reflexivity | repeat split; repeat constructor; fail]
          | exists 4; split; [reflexivity | repeat split; repeat constructor; fail]
          | exists 5; split; [reflexivity | repeat split; repeat constructor; fail]
          | exists 6; split; [reflexivity | repeat split; repeat constructor; fail]
          | exists 7; split; [reflexivity | repeat split; repeat constructor; fail] ].
Qed.

(** X6.  A resource instance without a region identity makes the constructor
    panic on the nil dereference, after its fifth call: neither the region
    lookup nor the construction of the PowerVS client is attempted, and no
    error is returned. *)
Theorem NewPowerVSImageScope_nil_region_panics
        (env : Env) (cl : ctrlclient.Client) (lg : logr.Logger)
        (obj : infrav1beta1.IBMPowerVSImage) (tr : list SetupCall)
        (helper : patch.Helper) (auth : core.Authenticator) (account : string)
        (rc : resourcecontroller.Service) :
  let lookup :=
    resourcecontrollerv2.mkGetResourceInstanceOptions
      (Some (infrav1beta1.ServiceInstanceID (infrav1beta1.Spec obj))) in
  patch_NewHelper env obj cl = inl helper ->
  authenticator_GetAuthenticator env = inl auth ->
  servicesutils_GetAccount env auth = inl account ->
  resourcecontroller_NewService env = inl rc ->
  resourcecontroller.GetResourceInstance rc lookup =
    inl (resourcecontrollerv2.mkResourceInstance None) ->
  NewPowerVSImageScope env (params.mkParams (Some cl) lg (Some obj)) tr =
    (Panicked,
     tr ++ [CallNewHelper obj cl; CallGetAuthenticator; CallGetAccount auth;
            CallNewResourceController; CallGetResourceInstance lookup]).
Proof.
  intros lookup H1 H2 H3 H4 H5.
  run_setup. rewrite H1. simpl. rewrite H2. simpl. rewrite H3. simpl.
  rewrite H4. simpl. fold lookup. rewrite H5. simpl.
  rewrite <- !app_assoc. reflexivity.
Qed.

Lemma NewPowerVSImageScope_nil_region_panics_witness :
  NewPowerVSImageScope (SampleEnv.ok None) SampleEnv.full [] =
    (Panicked,
     [CallNewHelper SampleEnv.obj (ctrlclient.Handle 1); CallGetAuthenticator;
      CallGetAccount (core.Auth "key"); CallNewResourceController;
      CallGetResourceInstance
        (resourcecontrollerv2.mkGetResourceInstanceOptions (Some "svc-1"))]).
Proof.
  apply (NewPowerVSImageScope_nil_region_panics
           (SampleEnv.ok None) (ctrlclient.Handle 1) logr.Zero SampleEnv.obj []
           SampleEnv.helper (core.Auth "key") "account-1" (SampleEnv.rc None));
    reflexivity.
Defined.

(** X7.  The logger of a returned scope is never left at its zero value once
    the arguments are accepted: it is the supplied logger, or a fresh klogr
    logger when the supplied one is the zero value.  A scope rejected for its
    arguments has no image and still the zero logger. *)
Theorem NewPowerVSImageScope_logger_defaulted
        (env : Env) (p : params.PowerVSImageScopeParams)
        (tr : list SetupCall) :
  match resultOf (NewPowerVSImageScope env p tr) with
  | Returned (scope, _) =>
      match alloc.IBMPowerVSImage scope with
      | None => alloc.Logger scope = logr.Zero
      | Some _ =>
          alloc.Logger scope =
            (if logr.isZero (params.Logger p)
             then klogr_New else params.Logger p) /\
          logr.isZero (alloc.Logger scope) = false
      end
  | Panicked => True
  end.
Proof.
  destruct p as [[cl|] lg [obj|]]; run_setup; auto.
  destruct lg; simpl; split_replies; auto.
Qed.

(** ** The scan of the listing, on its own *)

(** X8.  [ensureImageUnique] makes the listing call and nothing else: no
    event, no log line, no write to the object.  A failed listing gives a
    nil image with the error.  On a successful one the scan dereferences the
    name of each record in turn: it gives a nil error with the first record
    of that name, when the records before it are named; a nil image and a
    nil error, when every record is named and none has that name; and it
    panics when it reaches a record without a name before any match.  An
    image and an error are never returned together. *)
Theorem ensureImageUnique_result
        (i : PowerVSImageScope) (n : string) (st : Store) :
  final (ensureImageUnique i n st) =
    mkStore (image st) (events st) (logs st)
            (calls st ++ [powervs.CallGetAllImage]) /\
  match powervs.GetAllImage (IBMPowerVSClient i) with
  | inr e => outcome (ensureImageUnique i n st) = Returned (None, Some e)
  | inl imgs =>
      (exists pre img,
         firstMatch imgs n pre img /\ allNamed pre /\
         outcome (ensureImageUnique i n st) = Returned (Some img, None)) \/
      (noMatch imgs n /\ allNamed (models.Images_Images imgs) /\
       outcome (ensureImageUnique i n st) = Returned (None, None)) \/
      ((exists pre, nilNameFirst imgs n pre) /\
       outcome (ensureImageUnique i n st) = Panicked)
  end.
Proof.
  unfold ensureImageUnique, bind, remote, ret, outcome, final. simpl.
  destruct (powervs.GetAllImage (IBMPowerVSClient i)) as [imgs|e]; simpl;
    [|split; reflexivity].
  destruct (rangeImages_cases (models.Images_Images imgs) n)
    as [(Hn & Hno & Hrun)
       |[(pre & img & post & Hl & Himg & Hn & Hno & Hrun)
        |(pre & x & post & Hl & Hx & Hn & Hno & Hrun)]];
    rewrite Hrun; simpl; (split; [reflexivity|]).
  - right. left. auto.
  - left. exists pre, img. repeat split; auto. exists post. auto.
  - right. right. split; [|reflexivity]. exists pre, x, post. auto.
Qed.

(** ** Creation of the image: what every run has in common *)

Lemma submitImportJob_appends
      (i : PowerVSImageScope) (m : infrav1beta1.ObjectMeta)
      (s : infrav1beta1.IBMPowerVSImageSpec) (st : Store) :
  exists es ls,
    final (submitImportJob i m s st) =
      mkStore (image st) (events st ++ es) (logs st ++ ls)
              (calls st ++ [powervs.CallCreateCosImage (importBody m s)]).
Proof.
  unfold submitImportJob, bind, remote, Info, Warnf, Eventf, emit, ret, final,
         deref.
  simpl.
  destruct (powervs.CreateCosImage (IBMPowerVSClient i) (importBody m s))
    as [jobRef|err]; simpl.
  - destruct (models.ID jobRef); simpl.
    + do 2 eexists. reflexivity.
    + exists []. eexists. rewrite app_nil_r. reflexivity.
  - do 2 eexists. reflexivity.
Qed.

Lemma CreateImageCOSBucket_keeps_image (i : PowerVSImageScope) (st : Store) :
  image (final (CreateImageCOSBucket i st)) = image st.
Proof.
  destruct (powervs.GetAllImage (IBMPowerVSClient i)) as [imgs|e] eqn:Hlist.
  - destruct (listing_cases imgs (nameOf st))
      as [[Hno Hnamed]|[(pre & img & Hfirst & Hnamed)|[pre Hnil]]].
    + rewrite (CreateImageCOSBucket_noMatch_unfold i st imgs Hlist Hno Hnamed).
      cbv zeta.
      destruct (fst (powervs.GetCosImages (IBMPowerVSClient i)
                       (infrav1beta1.ServiceInstanceID (specOf st))))
        as [job|].
      * destruct (stateOf job) as [state|]; [|reflexivity].
        destruct (notFinished state); [reflexivity|].
        destruct (submitImportJob_appends i (infrav1beta1.Meta (image st))
                    (specOf st)
                    (mkStore (image st) (events st) (logs st)
                       ((calls st ++ [powervs.CallGetAllImage]) ++
                        [powervs.CallGetCosImages
                           (infrav1beta1.ServiceInstanceID (specOf st))])))
          as (es & ls & ->).
        reflexivity.
      * destruct (submitImportJob_appends i (infrav1beta1.Meta (image st))
                    (specOf st)
                    (mkStore (image st) (events st) (logs st)
                       ((calls st ++ [powervs.CallGetAllImage]) ++
                        [powervs.CallGetCosImages
                           (infrav1beta1.ServiceInstanceID (specOf st))])))
          as (es & ls & ->).
        reflexivity.
    + rewrite (CreateImageCOSBucket_found_unfold i st imgs pre img
                 Hlist Hfirst Hnamed).
      reflexivity.
    + rewrite (CreateImageCOSBucket_nil_name_unfold i st imgs pre Hlist Hnil).
      reflexivity.
  - run_method. rewrite Hlist. reflexivity.
Qed.

(** X9.  On every path, the panic included, [CreateImageCOSBucket] writes
    nothing to the object: name, spec and status, the job identity among
    them, are as before.  Events, log lines and calls are only appended, and
    the first call is always the listing. *)
Theorem CreateImageCOSBucket_appends_only
        (i : PowerVSImageScope) (st : Store) :
  exists es ls cs,
    final (CreateImageCOSBucket i st) =
      mkStore (image st) (events st ++ es) (logs st ++ ls)
              (calls st ++ powervs.CallGetAllImage :: cs).
Proof.
  destruct (powervs.GetAllImage (IBMPowerVSClient i)) as [imgs|e] eqn:Hlist.
  - destruct (listing_cases imgs (nameOf st))
      as [[Hno Hnamed]|[(pre & img & Hfirst & Hnamed)|[pre Hnil]]].
    + rewrite (CreateImageCOSBucket_noMatch_unfold i st imgs Hlist Hno Hnamed).
      cbv zeta.
      assert (Hsub : exists es ls cs,
        final (submitImportJob i (infrav1beta1.Meta (image st)) (specOf st)
                 (mkStore (image st) (events st) (logs st)
                    ((calls st ++ [powervs.CallGetAllImage]) ++
                     [powervs.CallGetCosImages
                        (infrav1beta1.ServiceInstanceID (specOf st))]))) =
        mkStore (image st) (events st ++ es) (logs st ++ ls)
                (calls st ++ powervs.CallGetAllImage :: cs)).
      { destruct (submitImportJob_appends i (infrav1beta1.Meta (image st))
                    (specOf st)
                    (mkStore (image st) (events st) (logs st)
                       ((calls st ++ [powervs.CallGetAllImage]) ++
                        [powervs.CallGetCosImages
                           (infrav1beta1.ServiceInstanceID (specOf st))])))
          as (es & ls & ->).
        exists es, ls. eexists. simpl. rewrite <- !app_assoc. reflexivity. }
      destruct (fst (powervs.GetCosImages (IBMPowerVSClient i)
                       (infrav1beta1.ServiceInstanceID (specOf st))))
        as [job|]; [|exact Hsub].
      destruct (stateOf job) as [state|].
      * destruct (notFinished state); [|exact Hsub].
        exists []. do 2 eexists. unfold final. simpl.
        rewrite app_nil_r, <- app_assoc. reflexivity.
      * exists [], []. eexists. unfold final. simpl.
        rewrite !app_nil_r, <- app_assoc. reflexivity.
    + rewrite (CreateImageCOSBucket_found_unfold i st imgs pre img
                 Hlist Hfirst Hnamed).
      do 2 eexists. exists []. reflexivity.
    + rewrite (CreateImageCOSBucket_nil_name_unfold i st imgs pre Hlist Hnil).
      exists [], [], []. unfold final. simpl. rewrite !app_nil_r. reflexivity.
  - run_method. rewrite Hlist. simpl.
    exists [], [], []. rewrite !app_nil_r. reflexivity.
Qed.

(** X10.  What a run records follows from what it returns.  A panic and the
    no-op result record no event; a returned image or job comes with exactly
    one normal event naming it; a returned error comes with exactly one
    warning, that of the failed job creation, carrying the error's
    message. *)
Theorem CreateImageCOSBucket_events
        (i : PowerVSImageScope) (st : Store) :
  match outcome (CreateImageCOSBucket i st) with
  | Panicked => events (final (CreateImageCOSBucket i st)) = events st
  | Returned (None, None, None) =>
      events (final (CreateImageCOSBucket i st)) = events st
  | Returned (_, _, Some e) =>
      events (final (CreateImageCOSBucket i st)) =
        events st ++ [record.mkEvent record.Warning "FailedCreateImageImportJob"
                        "Failed image import job creation - %v" [Error e]]
  | Returned (Some img, _, None) =>
      exists name,
        models.Name img = Some name /\
        events (final (CreateImageCOSBucket i st)) =
          events st ++ [record.mkEvent record.Normal "SuccessfulRetriveImage"
                          "Retrieved Image %q" [name]]
  | Returned (None, Some jobRef, None) =>
      exists id,
        models.ID jobRef = Some id /\
        events (final (CreateImageCOSBucket i st)) =
          events st ++ [record.mkEvent record.Normal
                          "SuccessfulCreateImageImportJob"
                          "Created image import job %q" [id]]
  end.
Proof.
  destruct (powervs.GetAllImage (IBMPowerVSClient i)) as [imgs|e] eqn:Hlist.
  - destruct (listing_cases imgs (nameOf st))
      as [[Hno Hnamed]|[(pre & img & Hfirst & Hnamed)|[pre Hnil]]].
    + rewrite (CreateImageCOSBucket_noMatch_unfold i st imgs Hlist Hno Hnamed).
      cbv zeta.
      destruct (fst (powervs.GetCosImages (IBMPowerVSClient i)
                       (infrav1beta1.ServiceInstanceID (specOf st))))
        as [job|].
      * destruct (stateOf job) as [state|]; [|reflexivity].
        destruct (notFinished state); [reflexivity|].
        rewrite submitImportJob_outcome, submitImportJob_events.
        destruct (powervs.CreateCosImage _ _) as [jobRef|err];
          [destruct (models.ID jobRef) as [id|] eqn:Hid|]; simpl; eauto.
      * rewrite submitImportJob_outcome, submitImportJob_events.
        destruct (powervs.CreateCosImage _ _) as [jobRef|err];
          [destruct (models.ID jobRef) as [id|] eqn:Hid|]; simpl; eauto.
    + rewrite (CreateImageCOSBucket_found_unfold i st imgs pre img
                 Hlist Hfirst Hnamed).
      unfold outcome, final. simpl.
      destruct Hfirst as (post & _ & Himg & _). eauto.
    + rewrite (CreateImageCOSBucket_nil_name_unfold i st imgs pre Hlist Hnil).
      reflexivity.
  - run_method. rewrite Hlist. reflexivity.
Qed.

(** X11.  [CreateImageCOSBucket] reads the name and the spec of the object
    and nothing else of the store: two stores whose objects agree on these
    give the same result, whatever their status, events, logs and earlier
    calls. *)
Theorem CreateImageCOSBucket_reads_name_and_spec
        (i : PowerVSImageScope) (st1 st2 : Store) :
  infrav1beta1.Meta (image st1) = infrav1beta1.Meta (image st2) ->
  infrav1beta1.Spec (image st1) = infrav1beta1.Spec (image st2) ->
  outcome (CreateImageCOSBucket i st1) = outcome (CreateImageCOSBucket i st2).
Proof.
  intros Hm Hs.
  assert (Hname : nameOf st1 = nameOf st2) by (unfold nameOf; now rewrite Hm).
  assert (Hspec : specOf st1 = specOf st2) by exact Hs.
  destruct (powervs.GetAllImage (IBMPowerVSClient i)) as [imgs|e] eqn:Hlist.
  - destruct (listing_cases imgs (nameOf st1))
      as [[Hno Hnamed]|[(pre & img & Hfirst & Hnamed)|[pre Hnil]]].
    + rewrite (CreateImageCOSBucket_noMatch_unfold i st1 imgs Hlist Hno Hnamed).
      rewrite Hname in Hno.
      rewrite (CreateImageCOSBucket_noMatch_unfold i st2 imgs Hlist Hno Hnamed).
      cbv zeta. rewrite Hspec, Hm.
      destruct (fst (powervs.GetCosImages (IBMPowerVSClient i)
                       (infrav1beta1.ServiceInstanceID (specOf st2))))
        as [job|].
      * destruct (stateOf job) as [state|]; [|reflexivity].
        destruct (notFinished state); [reflexivity|].
        now rewrite !submitImportJob_outcome.
      * now rewrite !submitImportJob_outcome.
    + rewrite (CreateImageCOSBucket_found_unfold i st1 imgs pre img
                 Hlist Hfirst Hnamed).
      rewrite Hname in Hfirst.
      rewrite (CreateImageCOSBucket_found_unfold i st2 imgs pre img
                 Hlist Hfirst Hnamed).
      reflexivity.
    + rewrite (CreateImageCOSBucket_nil_name_unfold i st1 imgs pre Hlist Hnil).
      rewrite Hname in Hnil.
      rewrite (CreateImageCOSBucket_nil_name_unfold i st2 imgs pre Hlist Hnil).
      reflexivity.
  - run_method. rewrite Hlist. reflexivity.
Qed.

Lemma CreateImageCOSBucket_reads_name_and_spec_witness :
  let i := Sample.client (inl (models.mkImages [Sample.imgB; Sample.imgA]))
                         (None, None) None in
  outcome (CreateImageCOSBucket i (Sample.store "img-a" Sample.imported)) =
  outcome (CreateImageCOSBucket i
             (mkStore (Sample.obj "img-a" infrav1beta1.zeroStatus) []
                      ["earlier line"] [powervs.CallDeleteJob "job-0"])).
Proof.
  apply (CreateImageCOSBucket_reads_name_and_spec
           (Sample.client (inl (models.mkImages [Sample.imgB; Sample.imgA]))
                          (None, None) None)
           (Sample.store "img-a" Sample.imported)
           (mkStore (Sample.obj "img-a" infrav1beta1.zeroStatus) []
                    ["earlier line"] [powervs.CallDeleteJob "job-0"]));
    reflexivity.
Defined.

(** ** Creation of the image: when a job is requested *)

Lemma notFinished_false_inv (state : string) :
  notFinished state = false -> state = "completed" \/ state = "failed".
Proof.
  unfold notFinished.
  destruct (String.eqb_spec state "completed") as [Hc|Hc];
    [intros _; now left|].
  destruct (String.eqb_spec state "failed") as [Hf|Hf];
    [intros _; now right|].
  discriminate.
Qed.

Lemma notFinished_true_inv (state : string) :
  notFinished state = true -> state <> "completed" /\ state <> "failed".
Proof.
  unfold notFinished.
  destruct (String.eqb_spec state "completed") as [Hc|Hc]; [discriminate|].
  destruct (String.eqb_spec state "failed") as [Hf|Hf]; [discriminate|].
  auto.
Qed.

(** X12.  A run requests a new import job in exactly one situation: the
    listing succeeded, every record in it carries a name and none the
    resource's name, and the job fetch gave no job or a job whose state is
    completed or failed.  It then makes one request, for the body built from
    the name and the spec with public bucket access.  In every other
    situation it makes none: the listing failed, a record of that name was
    found, the scan panicked on a record without a name, the fetched job has
    no state to read, or its state is another one. *)
Theorem CreateImageCOSBucket_creates_exactly_when
        (i : PowerVSImageScope) (st : Store) :
  let lastJob :=
    fst (powervs.GetCosImages (IBMPowerVSClient i)
           (infrav1beta1.ServiceInstanceID (specOf st))) in
  let body :=
    models.mkCreateCosImageImportJob
      (Some (nameOf st))
      (infrav1beta1.Bucket (specOf st))
      (Some "public")
      (infrav1beta1.Region (specOf st))
      (infrav1beta1.Object (specOf st))
      (infrav1beta1.StorageType (specOf st)) in
  let after := calls (final (CreateImageCOSBucket i st)) in
  (createCalls after =
     createCalls (calls st) ++ [powervs.CallCreateCosImage body] /\
   exists imgs,
     powervs.GetAllImage (IBMPowerVSClient i) = inl imgs /\
     noMatch imgs (nameOf st) /\
     allNamed (models.Images_Images imgs) /\
     (lastJob = None \/
      exists job,
        lastJob = Some job /\
        (stateOf job = Some "completed" \/ stateOf job = Some "failed")))
  \/
  (createCalls after = createCalls (calls st) /\
   ((exists e, powervs.GetAllImage (IBMPowerVSClient i) = inr e) \/
    (exists imgs pre img,
       powervs.GetAllImage (IBMPowerVSClient i) = inl imgs /\
       firstMatch imgs (nameOf st) pre img /\ allNamed pre) \/
    (exists imgs pre,
       powervs.GetAllImage (IBMPowerVSClient i) = inl imgs /\
       nilNameFirst imgs (nameOf st) pre) \/
    (exists job, lastJob = Some job /\ stateOf job = None) \/
    (exists job state,
       lastJob = Some job /\ stateOf job = Some state /\
       state <> "completed" /\ state <> "failed"))).
Proof.
  intros lastJob body after. subst after.
  assert (Hkeep : forall cs,
            createCalls (calls st ++ cs) = createCalls (calls st) ++ createCalls cs)
    by (intros cs; apply createCalls_app).
  destruct (powervs.GetAllImage (IBMPowerVSClient i)) as [imgs|e] eqn:Hlist.
  - destruct (listing_cases imgs (nameOf st))
      as [[Hno Hnamed]|[(pre & img & Hfirst & Hnamed)|[pre Hnil]]].
    + rewrite (CreateImageCOSBucket_noMatch_unfold i st imgs Hlist Hno Hnamed).
      cbv zeta. fold lastJob.
      assert (Hsub :
        createCalls
          (calls (final (submitImportJob i (infrav1beta1.Meta (image st))
                           (specOf st)
                           (mkStore (image st) (events st) (logs st)
                              ((calls st ++ [powervs.CallGetAllImage]) ++
                               [powervs.CallGetCosImages
                                  (infrav1beta1.ServiceInstanceID
                                     (specOf st))]))))) =
        createCalls (calls st) ++ [powervs.CallCreateCosImage body]).
      { rewrite submitImportJob_calls. simpl.
        rewrite !createCalls_app. simpl. now rewrite !app_nil_r. }
      assert (Hnone :
        createCalls ((calls st ++ [powervs.CallGetAllImage]) ++
                     [powervs.CallGetCosImages
                        (infrav1beta1.ServiceInstanceID (specOf st))]) =
        createCalls (calls st)).
      { rewrite !createCalls_app. simpl. now rewrite !app_nil_r. }
      destruct lastJob as [job|] eqn:Hjob.
      * destruct (stateOf job) as [state|] eqn:Hstate.
        -- destruct (notFinished state) eqn:Hnf.
           ++ right. split; [exact Hnone|].
              do 4 right. exists job, state.
              destruct (notFinished_true_inv _ Hnf). auto.
           ++ left. split; [exact Hsub|].
              exists imgs. repeat split; auto.
              right. exists job. split; [reflexivity|].
              destruct (notFinished_false_inv _ Hnf) as [->| ->]; auto.
        -- right. split; [exact Hnone|].
           do 3 right. left. exists job. auto.
      * left. split; [exact Hsub|].
        exists imgs. repeat split; auto.
    + rewrite (CreateImageCOSBucket_found_unfold i st imgs pre img
                 Hlist Hfirst Hnamed).
      right. split.
      * unfold final. simpl. rewrite Hkeep. simpl. apply app_nil_r.
      * right. left. exists imgs, pre, img. auto.
    + rewrite (CreateImageCOSBucket_nil_name_unfold i st imgs pre Hlist Hnil).
      right. split.
      * unfold final. simpl. rewrite Hkeep. simpl. apply app_nil_r.
      * do 2 right. left. exists imgs, pre. auto.
  - right. split.
    + run_method. rewrite Hlist. simpl.
      rewrite createCalls_app. simpl. apply app_nil_r.
    + left. now exists e.
Qed.

(** X13.  The method keeps no memory of a request it has made.  When the
    listing shows named records, none of the resource's name, and the job
    fetch reports no job, a second run straight after the first requests a
    second import job with the same body. *)
Theorem CreateImageCOSBucket_twice_requests_twice
        (i : PowerVSImageScope) (st : Store) (imgs : models.Images) :
  powervs.GetAllImage (IBMPowerVSClient i) = inl imgs ->
  noMatch imgs (nameOf st) ->
  allNamed (models.Images_Images imgs) ->
  fst (powervs.GetCosImages (IBMPowerVSClient i)
         (infrav1beta1.ServiceInstanceID (specOf st))) = None ->
  let body := importBody (infrav1beta1.Meta (image st)) (specOf st) in
  createCalls (calls (final (CreateImageCOSBucket i
                               (final (CreateImageCOSBucket i st))))) =
    createCalls (calls st) ++ [powervs.CallCreateCosImage body;
                               powervs.CallCreateCosImage body].
Proof.
  intros Hlist Hno Hnamed Hjob body.
  assert (Himg := CreateImageCOSBucket_keeps_image i st).
  assert (Hno' : noMatch imgs (nameOf (final (CreateImageCOSBucket i st))))
    by (unfold nameOf; rewrite Himg; exact Hno).
  rewrite (CreateImageCOSBucket_noMatch_unfold i _ imgs Hlist Hno' Hnamed).
  cbv zeta. unfold specOf in *. rewrite Himg. rewrite Hjob.
  rewrite submitImportJob_calls. simpl.
  rewrite (CreateImageCOSBucket_noMatch_unfold i st imgs Hlist Hno Hnamed).
  cbv zeta. unfold specOf. rewrite Hjob.
  rewrite submitImportJob_calls. simpl.
  rewrite !createCalls_app. simpl. rewrite !app_nil_r.
  rewrite <- app_assoc. reflexivity.
Qed.

Lemma CreateImageCOSBucket_twice_requests_twice_witness :
  let i := Sample.client (inl (models.mkImages [Sample.imgB])) (None, None) None in
  let st := Sample.store "boot-img" infrav1beta1.zeroStatus in
  let body :=
    models.mkCreateCosImageImportJob
      (Some "boot-img") "b1" (Some "public") "us-south" "o1" "tier1" in
  createCalls (calls (final (CreateImageCOSBucket i
                               (final (CreateImageCOSBucket i st))))) =
    [powervs.CallCreateCosImage body; powervs.CallCreateCosImage body].
Proof.
  apply (CreateImageCOSBucket_twice_requests_twice
           (Sample.client (inl (models.mkImages [Sample.imgB])) (None, None) None)
           (Sample.store "boot-img" infrav1beta1.zeroStatus)
           (models.mkImages [Sample.imgB])).
  - reflexivity.
  - intros img [Himg|[]]. subst img. simpl. discriminate.
  - intros img [Himg|[]]. subst img. simpl. discriminate.
  - reflexivity.
Defined.

(** ** Deletion: success, and the identity that is deleted *)

(** X14.  When the remote deletion succeeds, [DeleteImage]
    ([DeleteImportJob]) returns a nil error and records one normal event
    naming the identity deleted.  It does not clear the status: the image
    (job) identity stays recorded, and the rest of the object is untouched;
    clearing is left to the caller. *)
Theorem delete_success_keeps_identity (i : PowerVSImageScope) (st : Store) :
  (powervs.DeleteImage (IBMPowerVSClient i)
     (infrav1beta1.ImageID (statusOf st)) = None ->
   DeleteImage i st =
     (Returned None,
      mkStore (image st)
              (events st ++ [record.mkEvent record.Normal "SuccessfulDeleteImage"
                               "Deleted Image %q"
                               [infrav1beta1.ImageID (statusOf st)]])
              (logs st)
              (calls st ++ [powervs.CallDeleteImage
                              (infrav1beta1.ImageID (statusOf st))]))) /\
  (powervs.DeleteJob (IBMPowerVSClient i)
     (infrav1beta1.JobID (statusOf st)) = None ->
   DeleteImportJob i st =
     (Returned None,
      mkStore (image st)
              (events st ++ [record.mkEvent record.Normal
                               "SuccessfulDeleteImageImoprtJob"
                               "Deleted image import job %q"
                               [infrav1beta1.JobID (statusOf st)]])
              (logs st)
              (calls st ++ [powervs.CallDeleteJob
                              (infrav1beta1.JobID (statusOf st))]))).
Proof.
  split; intros Hdel; run_method; rewrite Hdel; reflexivity.
Qed.

Lemma delete_success_keeps_identity_witness :
  let i := Sample.client (inl (models.mkImages [])) (None, None) None in
  let st := Sample.store "img-a" Sample.imported in
  (outcome (DeleteImage i st) = Returned None /\
   statusOf (final (DeleteImage i st)) = Sample.imported /\
   map record.isWarning (events (final (DeleteImage i st))) = [false]) /\
  (outcome (DeleteImportJob i st) = Returned None /\
   statusOf (final (DeleteImportJob i st)) = Sample.imported /\
   map record.isWarning (events (final (DeleteImportJob i st))) = [false]).
Proof.
  destruct (delete_success_keeps_identity
              (Sample.client (inl (models.mkImages [])) (None, None) None)
              (Sample.store "img-a" Sample.imported)) as [Himg Hjob].
  split.
  - rewrite Himg; [repeat split | reflexivity].
  - rewrite Hjob; [repeat split | reflexivity].
Defined.

(** X15.  The deletions act on the identity that the setters recorded last.
    After [SetImageID] on a string, [DeleteImage] asks for the deletion of
    that string, the empty one included, for which there is no guard; after
    [SetImageID] on nil it asks for the identity recorded before.  After
    [SetJobID], [DeleteImportJob] asks for the deletion of that job.  Each
    makes this one call, whether it succeeds or not. *)
Theorem delete_uses_recorded_identity (i : PowerVSImageScope) (st : Store) :
  (forall s,
     calls (final (DeleteImage i (final (SetImageID i (Some s) st)))) =
       calls st ++ [powervs.CallDeleteImage s]) /\
  calls (final (DeleteImage i (final (SetImageID i None st)))) =
    calls st ++ [powervs.CallDeleteImage (infrav1beta1.ImageID (statusOf st))] /\
  (forall s,
     calls (final (DeleteImportJob i (final (SetJobID i s st)))) =
       calls st ++ [powervs.CallDeleteJob s]).
Proof.
  repeat split; intros; run_method; split_replies; reflexivity.
Qed.

(** ** The accessors read back what was written *)

(** X16.  Each getter returns what the matching setter wrote last:
    [GetImageID] after [SetImageID] on a string gives that string, and after
    [SetImageID] on nil what it gave before; [GetImageState] and [GetJobID]
    give the values set; [IsReady] is true after [SetReady] and false after
    [SetNotReady]. *)
Theorem getters_read_back (i : PowerVSImageScope) (st : Store) :
  (forall s,
     outcome (GetImageID i (final (SetImageID i (Some s) st))) = Returned s) /\
  outcome (GetImageID i (final (SetImageID i None st))) =
    outcome (GetImageID i st) /\
  (forall s,
     outcome (GetImageState i (final (SetImageState i s st))) = Returned s) /\
  (forall s,
     outcome (GetJobID i (final (SetJobID i s st))) = Returned s) /\
  outcome (IsReady i (final (SetReady i st))) = Returned true /\
  outcome (IsReady i (final (SetNotReady i st))) = Returned false.
Proof.
  repeat split.
Qed.

(** X17.  Setters of different status fields commute: applied in either
    order they leave the same store. *)
Theorem setters_commute (i : PowerVSImageScope) (op1 op2 : Op) (st : Store) :
  writes op1 <> None ->
  writes op2 <> None ->
  writes op1 <> writes op2 ->
  exec i op1 (exec i op2 st) = exec i op2 (exec i op1 st).
Proof.
  intros H1 H2 Hne.
  destruct op1 as [| |[id1|]| | | |], op2 as [| |[id2|]| | | |];
    simpl in H1, H2, Hne; try congruence; reflexivity.
Qed.

Lemma setters_commute_witness :
  let i := Sample.client (inl (models.mkImages [])) (None, None) None in
  let st := Sample.store "img-a" Sample.tracked in
  exec i OpSetReady (exec i (OpSetImageID (Some "123")) st) =
  exec i (OpSetImageID (Some "123")) (exec i OpSetReady st).
Proof.
  apply (setters_commute
           (Sample.client (inl (models.mkImages [])) (None, None) None)
           OpSetReady (OpSetImageID (Some "123"))
           (Sample.store "img-a" Sample.tracked));
    simpl; discriminate.
Defined.

(** X18.  A setter overwrites: of two successive writes to the same status
    field only the second is seen, as if the first had not been made. *)
Theorem setters_last_write_wins
        (i : PowerVSImageScope) (op1 op2 : Op) (st : Store) :
  writes op2 <> None ->
  writes op1 = writes op2 ->
  exec i op2 (exec i op1 st) = exec i op2 st.
Proof.
  intros H2 Heq.
  destruct op1 as [| |[id1|]| | | |], op2 as [| |[id2|]| | | |];
    simpl in H2, Heq; try congruence; reflexivity.
Qed.

Lemma setters_last_write_wins_witness :
  let i := Sample.client (inl (models.mkImages [])) (None, None) None in
  let st := Sample.store "img-a" Sample.tracked in
  exec i OpSetNotReady (exec i OpSetReady st) = exec i OpSetNotReady st /\
  exec i (OpSetJobID "job-3") (exec i (OpSetJobID "job-2") st) =
    exec i (OpSetJobID "job-3") st.
Proof.
  split.
  - apply (setters_last_write_wins
             (Sample.client (inl (models.mkImages [])) (None, None) None)
             OpSetReady OpSetNotReady (Sample.store "img-a" Sample.tracked));
      [simpl; discriminate | reflexivity].
  - apply (setters_last_write_wins
             (Sample.client (inl (models.mkImages [])) (None, None) None)
             (OpSetJobID "job-2") (OpSetJobID "job-3")
             (Sample.store "img-a" Sample.tracked));
      [simpl; discriminate | reflexivity].
Defined.

(** ** The tag pattern of the build script *)

Lemma string_app_nil_inv (s t : string) :
  (s ++ t)%string = ""%string -> s = ""%string /\ t = ""%string.
Proof. destruct s; simpl; [auto | discriminate]. Qed.

Lemma nullable_lang (r : regex.re) :
  regex.nullable r = true <-> regex.lang r "".
Proof.
  split.
  - induction r; simpl; intros H; try discriminate.
    + constructor.
    + apply andb_prop in H. destruct H as [Ha Hb].
      change (regex.lang (regex.Seq r1 r2) ("" ++ "")%string).
      constructor; auto.
    + apply orb_prop in H. destruct H as [Ha|Hb];
        [apply regex.LAltL | apply regex.LAltR]; auto.
    + constructor.
  - intros H. remember ""%string as w eqn:Hw.
    induction H; simpl; try discriminate; auto.
    + apply string_app_nil_inv in Hw. destruct Hw as [-> ->].
      rewrite IHlang1, IHlang2; auto.
    + rewrite IHlang; auto.
    + rewrite IHlang; auto using orb_true_r.
Qed.

Lemma deriv_sound (c : ascii) (r : regex.re) :
  forall s, regex.lang (regex.deriv c r) s -> regex.lang r (String c s).
Proof.
  induction r; simpl; intros s H.
  - inversion H.
  - inversion H.
  - destruct (Ascii.eqb_spec c c0) as [->|Hne]; inversion H; subst.
    constructor.
  - destruct (regex.inRange lo hi c) eqn:E; inversion H; subst.
    now constructor.
  - assert (Hseq : forall x y,
               regex.lang (regex.deriv c r1) x -> regex.lang r2 y ->
               regex.lang (regex.Seq r1 r2) (String c (x ++ y))).
    { intros x y Hx Hy.
      change (regex.lang (regex.Seq r1 r2) (String c x ++ y)%string).
      constructor; auto. }
    destruct (regex.nullable r1) eqn:E.
    + inversion H as [| | | | a b s0 Ha | a b s0 Hb | |]; subst.
      * inversion Ha; subst. auto.
      * change (regex.lang (regex.Seq r1 r2) ("" ++ String c s)%string).
        constructor; auto. now apply nullable_lang.
    + inversion H; subst. auto.
  - inversion H; subst; [apply regex.LAltL | apply regex.LAltR]; auto.
  - inversion H; subst.
    match goal with
    | Hx : regex.lang (regex.deriv c r) ?x, Hy : regex.lang (regex.Star r) ?y
      |- _ =>
        change (regex.lang (regex.Star r) (String c x ++ y)%string);
        constructor; auto
    end.
Qed.

Lemma deriv_complete (r : regex.re) (w : string) :
  regex.lang r w ->
  forall c s, w = String c s -> regex.lang (regex.deriv c r) s.
Proof.
  induction 1; intros c0 s0 Hw; simpl; try discriminate.
  - inversion Hw; subst. rewrite Ascii.eqb_refl. constructor.
  - inversion Hw; subst. rewrite H. constructor.
  - destruct s as [|c1 s1]; simpl in Hw.
    + subst t. apply nullable_lang in H. rewrite H.
      apply regex.LAltR. now apply IHlang2.
    + inversion Hw; subst.
      assert (Ha : regex.lang (regex.deriv c0 a) s1) by now apply IHlang1.
      destruct (regex.nullable a);
        [apply regex.LAltL |]; constructor; auto.
  - apply regex.LAltL. now apply IHlang.
  - apply regex.LAltR. now apply IHlang.
  - destruct s as [|c1 s1]; simpl in Hw.
    + subst t. now apply IHlang2.
    + inversion Hw; subst. constructor; auto.
Qed.

(** The matcher decides whether some prefix is a string of the expression. *)
Lemma matchesAtStart_spec (s : string) :
  forall r,
    regex.matchesAtStart r s = true <->
    exists p q, s = (p ++ q)%string /\ regex.lang r p.
Proof.
  induction s as [|c s IH]; intros r; simpl.
  - rewrite orb_false_r. rewrite nullable_lang. split.
    + intros H. exists ""%string, ""%string. auto.
    + intros (p & q & Hs & Hl). symmetry in Hs.
      apply string_app_nil_inv in Hs. destruct Hs as [-> _]. exact Hl.
  - split.
    + intros H. apply orb_prop in H. destruct H as [H|H].
      * exists ""%string, (String c s). split; [reflexivity|].
        now apply nullable_lang.
      * apply IH in H. destruct H as (p & q & Hs & Hl).
        exists (String c p), q. split; [simpl; now rewrite Hs|].
        now apply deriv_sound.
    + intros (p & q & Hs & Hl). destruct p as [|c1 p]; simpl in Hs.
      * apply nullable_lang in Hl. rewrite Hl. reflexivity.
      * inversion Hs; subst. apply orb_true_iff. right.
        apply IH. exists p, q. split; [reflexivity|].
        now apply (deriv_complete r (String c1 p) Hl).
Qed.

Lemma dead_deriv (c : ascii) (r : regex.re) :
  regex.dead r = true ->
  regex.nullable r = false /\ regex.dead (regex.deriv c r) = true.
Proof.
  induction r; simpl; intros H; try discriminate.
  - auto.
  - destruct (IHr1 H) as [Hn Hd]. rewrite Hn. simpl. auto.
  - apply andb_prop in H. destruct H as [Ha Hb].
    destruct (IHr1 Ha) as [Hn1 Hd1], (IHr2 Hb) as [Hn2 Hd2].
    rewrite Hn1, Hn2, Hd1, Hd2. auto.
Qed.

Lemma dead_no_match (s : string) :
  forall r, regex.dead r = true -> regex.matchesAtStart r s = false.
Proof.
  induction s as [|c s IH]; intros r H; simpl.
  - destruct (dead_deriv "v"%char r H) as [Hn _]. now rewrite Hn.
  - destruct (dead_deriv c r H) as [Hn Hd]. rewrite Hn. simpl. auto.
Qed.

Lemma matchesAtStart_nullable (r : regex.re) (s : string) :
  regex.nullable r = true -> regex.matchesAtStart r s = true.
Proof. intros H. destruct s; simpl; rewrite H; reflexivity. Qed.

Ltac run_tests :=
  repeat (cbn [regex.matchesAtStart regex.nullable regex.deriv andb orb];
          match goal with
          | |- context [Ascii.eqb ?c ?d] => destruct (Ascii.eqb c d)
          | |- context [regex.inRange ?a ?b ?c] =>
              destruct (regex.inRange a b c)
          end);
  cbn [regex.matchesAtStart regex.nullable regex.deriv andb orb].

Lemma tagPattern_startsLikeVersion (tag : string) :
  regex.matchesAtStart build_images.tagPattern tag =
  build_images.startsLikeVersion tag.
Proof.
  unfold build_images.tagPattern, build_images.digit, regex.Plus,
         build_images.startsLikeVersion, build_images.isDigit.
  destruct tag as [|c1 [|c2 [|c3 [|c4 rest]]]]; run_tests;
    first [ reflexivity
          | apply dead_no_match; reflexivity
          | apply matchesAtStart_nullable; reflexivity ].
Qed.

Lemma startsLikeVersion_inv (tag : string) :
  build_images.startsLikeVersion tag = true <->
  exists d1 d2 rest,
    build_images.isDigit d1 = true /\ build_images.isDigit d2 = true /\
    tag = String "v" (String d1 (String "." (String d2 rest))).
Proof.
  split.
  - destruct tag as [|c1 [|c2 [|c3 [|c4 rest]]]]; simpl; try discriminate.
    intros H. apply andb_prop in H. destruct H as [H H4].
    apply andb_prop in H. destruct H as [H H3].
    apply andb_prop in H. destruct H as [H1 H2].
    apply Ascii.eqb_eq in H1, H3. subst c1 c3.
    exists c2, c4, rest. auto.
  - intros (d1 & d2 & rest & H1 & H2 & ->). simpl. rewrite H1, H2. reflexivity.
Qed.

(** X19.  The tag test of the build script accepts exactly the tags that
    start with [v], one digit, a dot and one digit; whatever follows is not
    looked at.  So a tag whose first number has two digits is not taken for
    a release.  The test is the one the pattern denotes: some prefix of the
    tag is a string of the expression. *)
Theorem tagPattern_accepts_version_prefix (tag : string) :
  (regex.matchesAtStart build_images.tagPattern tag = true <->
   exists d1 d2 rest,
     build_images.isDigit d1 = true /\ build_images.isDigit d2 = true /\
     tag = String "v" (String d1 (String "." (String d2 rest)))) /\
  (regex.matchesAtStart build_images.tagPattern tag = true <->
   exists p q,
     tag = (p ++ q)%string /\ regex.lang build_images.tagPattern p).
Proof.
  split.
  - rewrite tagPattern_startsLikeVersion. apply startsLikeVersion_inv.
  - apply matchesAtStart_spec.
Qed.

Example tagPattern_samples :
  map (regex.matchesAtStart build_images.tagPattern)
      ["v0.1.0"; "v1.2"; "v1.10.3-rc1"; "v10.0.0"; "1.2.3"; "v1"; "v1."; ""]%string
  = [true; true; true; false; false; false; false; false].
Proof. reflexivity. Qed.

(** ** The build script *)

Ltac run_script :=
  unfold build_images.start, build_images.script, build_images.chooseTag,
         build_images.bindSh, build_images.expand, build_images.echo,
         build_images.echoErr, build_images.exit0, build_images.run,
         build_images.retSh;
  simpl;
  repeat match goal with
         | |- context [regex.matchesAtStart ?r ?t] =>
             destruct (regex.matchesAtStart r t) eqn:?; simpl
         | |- context [String.eqb ?a ?b] =>
             destruct (String.eqb a b) eqn:?; simpl
         | |- context [if ?w ?c then _ else _] =>
             destruct (w c) eqn:?; simpl
         end.

(** X20.  A build that is neither for a version-like tag nor on the master
    branch deploys nothing: the script echoes the tag and the branch, says on
    the error stream that the build is skipped, and exits with status zero
    without running any command, whatever the Docker credentials. *)
Theorem script_skips_other_branches
        (base_dir tag branch : string) (user password : option string)
        (w : build_images.Command -> bool) :
  build_images.startsLikeVersion tag = false ->
  branch <> "master"%string ->
  build_images.start base_dir
    (build_images.mkEnviron (Some tag) (Some branch) user password) w =
    (build_images.Ended build_images.Exit0,
     [build_images.Echo ("travis tag: " ++ tag);
      build_images.Echo ("travis branch:" ++ branch);
      build_images.EchoErr "Nothing to deploy. Image build skipped."]).
Proof.
  intros Htag Hbranch.
  unfold build_images.start, build_images.script, build_images.chooseTag,
         build_images.bindSh, build_images.expand, build_images.echo,
         build_images.echoErr, build_images.exit0.
  simpl. rewrite tagPattern_startsLikeVersion, Htag.
  destruct (String.eqb_spec branch "master"); [contradiction|].
  reflexivity.
Qed.

Lemma script_skips_other_branches_witness :
  build_images.start "/src"
    (build_images.mkEnviron (Some "v10.0.0") (Some "v10.0.0") None None)%string
    (fun _ => true) =
    (build_images.Ended build_images.Exit0,
     [build_images.Echo "travis tag: v10.0.0";
      build_images.Echo "travis branch:v10.0.0";
      build_images.EchoErr "Nothing to deploy. Image build skipped."]).
Proof.
  apply (script_skips_other_branches
           "/src" "v10.0.0" "v10.0.0" None None (fun _ => true)).
  - reflexivity.
  - discriminate.
Defined.

(** X21.  Only a version-like tag touches the [latest] image.  For any other
    tag the script never runs [docker tag], and the only image it may push
    is the [canary] one. *)
Theorem script_latest_only_for_versions
        (base_dir tag : string) (env : build_images.Environ)
        (w : build_images.Command -> bool) :
  build_images.TRAVIS_TAG env = Some tag ->
  build_images.startsLikeVersion tag = false ->
  forall c,
    In c (build_images.commands (snd (build_images.start base_dir env w))) ->
    match c with
    | build_images.DockerTag _ _ => False
    | build_images.DockerPush img => img = build_images.image "canary"
    | _ => True
    end.
Proof.
  intros Henv Htag.
  destruct env as [t [branch|] [user|] [password|]];
    simpl in Henv; inversion Henv; subst t;
    unfold build_images.start, build_images.script, build_images.chooseTag,
           build_images.bindSh, build_images.expand, build_images.echo,
           build_images.echoErr, build_images.exit0, build_images.run,
           build_images.retSh;
    simpl; rewrite ?tagPattern_startsLikeVersion, ?Htag;
    repeat match goal with
           | |- context [String.eqb ?a ?b] =>
               destruct (String.eqb a b) eqn:?; simpl
           | |- context [if ?f ?c then _ else _] =>
               destruct (f c) eqn:?; simpl
           end;
    intros c Hin; simpl in Hin;
    repeat match goal with
           | H : _ \/ _ |- _ => destruct H
           | H : False |- _ => destruct H
           end;
    subst; auto.
Qed.

Lemma script_latest_only_for_versions_witness :
  let env := build_images.mkEnviron (Some "") (Some "master")
                                    (Some "bot") (Some "secret") in
  build_images.commands
    (snd (build_images.start "/src" env (fun _ => true))) =
    [build_images.DockerLogin "bot" "secret"; build_images.Cd "/src";
     build_images.Make
       "container IMG=docker.io/multicloudlab/cluster-api-provider-ibmcloud-controller:canary";
     build_images.CdBack;
     build_images.DockerPush (build_images.image "canary")] /\
  forall c,
    In c (build_images.commands
            (snd (build_images.start "/src" env (fun _ => true)))) ->
    match c with
    | build_images.DockerTag _ _ => False
    | build_images.DockerPush img => img = build_images.image "canary"
    | _ => True
    end.
Proof.
  split; [reflexivity|].
  apply (script_latest_only_for_versions
           "/src" ""
           (build_images.mkEnviron (Some "") (Some "master")
                                   (Some "bot") (Some "secret"))
           (fun _ => true)); reflexivity.
Defined.

(** X22.  The script never pushes an image without having logged in and
    built first: whenever a push is among the commands of a run, both
    credentials were set and the login, the change of directory, the build
    of the image for the chosen tag and the change back all succeeded. *)
Theorem script_push_needs_login_and_build
        (base_dir : string) (env : build_images.Environ)
        (w : build_images.Command -> bool) (img : string) :
  In (build_images.DockerPush img)
     (build_images.commands (snd (build_images.start base_dir env w))) ->
  exists user password tag,
    build_images.DOCKER_USERNAME env = Some user /\
    build_images.DOCKER_PASSWORD env = Some password /\
    w (build_images.DockerLogin user password) = true /\
    w (build_images.Cd base_dir) = true /\
    w (build_images.Make ("container IMG=" ++ build_images.image tag)) = true /\
    w build_images.CdBack = true /\
    (img = build_images.image tag \/ img = build_images.image "latest").
Proof.
  destruct env as [[tag|] [branch|] [user|] [password|]];
    run_script; intros Hin; simpl in Hin;
    repeat match goal with
           | H : _ \/ _ |- _ => destruct H
           | H : False |- _ => destruct H
           | H : build_images.DockerPush _ = build_images.DockerPush _ |- _ =>
               inversion H; clear H
           end;
    try discriminate;
    subst;
    first [ exists user, password, tag; repeat split; auto; fail
          | exists user, password, "canary"%string; repeat split; auto; fail ].
Qed.

Lemma script_push_needs_login_and_build_witness :
  let env := build_images.mkEnviron (Some "v1.2.3") (Some "v1.2.3")
                                    (Some "bot") (Some "secret") in
  let w := fun c : build_images.Command => true in
  exists user password tag,
    build_images.DOCKER_USERNAME env = Some user /\
    build_images.DOCKER_PASSWORD env = Some password /\
    w (build_images.DockerLogin user password) = true /\
    w (build_images.Cd "/src") = true /\
    w (build_images.Make ("container IMG=" ++ build_images.image tag)) = true /\
    w build_images.CdBack = true /\
    (build_images.image "latest" = build_images.image tag \/
     build_images.image "latest" = build_images.image "latest").
Proof.
  apply (script_push_needs_login_and_build
           "/src"
           (build_images.mkEnviron (Some "v1.2.3") (Some "v1.2.3")
                                   (Some "bot") (Some "secret"))
           (fun _ => true) (build_images.image "latest")).
  vm_compute. tauto.
Defined.

(** X23.  Under errexit the script stops at the first command that fails:
    when it ends on a failed command, that command is the last thing it did
    and every command before it succeeded; when it runs to its last line,
    every command it ran succeeded; and when it ends on its [exit 0] or on an
    unset variable, it has run no command at all. *)
Theorem script_stops_at_first_failure
        (base_dir : string) (env : build_images.Environ)
        (w : build_images.Command -> bool) :
  match fst (build_images.start base_dir env w) with
  | build_images.Ended (build_images.Failed c) =>
      w c = false /\
      exists pre,
        snd (build_images.start base_dir env w) =
          pre ++ [build_images.Run c] /\
        forall c', In c' (build_images.commands pre) -> w c' = true
  | build_images.Ended _ =>
      build_images.commands (snd (build_images.start base_dir env w)) = []
  | build_images.Next _ =>
      forall c,
        In c (build_images.commands (snd (build_images.start base_dir env w))) ->
        w c = true
  end.
Proof.
  destruct env as [[tag|] [branch|] [user|] [password|]];
    run_script; try reflexivity;
    try (split; [assumption|];
         match goal with
         | |- exists pre, ?tr = _ /\ _ => exists (removelast tr)
         end;
         split; [reflexivity|]; simpl);
    intros c' Hin; simpl in Hin;
    repeat match goal with
           | H : _ \/ _ |- _ => destruct H
           | H : False |- _ => destruct H
           end;
    subst; assumption.
Qed.

(** X24.  For a version-like tag, with both credentials set and every
    command succeeding, the script runs to its last line and does, in this
    order: log in, build the image for the tag, push it, tag it as [latest]
    and push [latest]; the branch plays no part. *)
Theorem script_release_run
        (base_dir tag branch user password : string)
        (w : build_images.Command -> bool) :
  build_images.startsLikeVersion tag = true ->
  (forall c, w c = true) ->
  build_images.start base_dir
    (build_images.mkEnviron (Some tag) (Some branch)
                            (Some user) (Some password)) w =
    (build_images.Next tt,
     [build_images.Echo ("travis tag: " ++ tag);
      build_images.Echo ("travis branch:" ++ branch);
      build_images.Echo ("Using tag: '" ++ tag ++ "' and 'latest' .");
      build_images.Echo "Starting image build";
      build_images.Echo "Logging into registry docker.io";
      build_images.Run (build_images.DockerLogin user password);
      build_images.Echo "Building controller docker image";
      build_images.Run (build_images.Cd base_dir);
      build_images.Run
        (build_images.Make ("container IMG=" ++ build_images.image tag));
      build_images.Run build_images.CdBack;
      build_images.Echo ("Pushing image with tag '" ++ tag ++ "'.");
      build_images.Run (build_images.DockerPush (build_images.image tag));
      build_images.Run
        (build_images.DockerTag (build_images.image tag)
                                (build_images.image "latest"));
      build_images.Echo "Pushing image with tag 'latest'.";
      build_images.Run (build_images.DockerPush (build_images.image "latest"))]).
Proof.
  intros Htag Hw.
  unfold build_images.start, build_images.script, build_images.chooseTag,
         build_images.bindSh, build_images.expand, build_images.echo,
         build_images.echoErr, build_images.exit0, build_images.run,
         build_images.retSh.
  simpl. rewrite tagPattern_startsLikeVersion, Htag. simpl.
  rewrite !Hw. reflexivity.
Qed.

Lemma script_release_run_witness :
  build_images.commands
    (snd (build_images.start "/src"
            (build_images.mkEnviron (Some "v0.1.0") (Some "v0.1.0")
                                    (Some "bot") (Some "secret"))
            (fun _ => true))) =
    [build_images.DockerLogin "bot" "secret"; build_images.Cd "/src";
     build_images.Make ("container IMG=" ++ build_images.image "v0.1.0");
     build_images.CdBack;
     build_images.DockerPush (build_images.image "v0.1.0");
     build_images.DockerTag (build_images.image "v0.1.0")
                            (build_images.image "latest");
     build_images.DockerPush (build_images.image "latest")].
Proof.
  rewrite (script_release_run "/src" "v0.1.0" "v0.1.0" "bot" "secret"
                              (fun _ => true));
    reflexivity.
Defined.
